(** * solar_banner.py: the classification and formatting pipeline

    A shallow embedding of [solar_banner.py].  The script fetches one XML
    document, looks up a record node, reads eight leaf fields from it with
    [safe_get], converts four of them with [float] / [int], classifies four
    values through fixed threshold ladders and assembles six German and six
    English display lines, which it draws on a bitmap and saves.

    Python values are modelled as follows.
    - [str]: Rocq [string]; a character is a code point below 256.
    - [int]: [Z].
    - [float]: an IEEE 754 binary64 value, as the Standard Library's
      [spec_float] with [prec = 53] and [emax = 1024].
    - an exception: a value of [exn] on the left of a sum.
    - [xml.etree.ElementTree.Element]: the tree type [Element]. *)

From Stdlib Require Import ZArith QArith Qabs List String Ascii Lia Bool.
From Stdlib Require Import Floats.SpecFloat DecimalString.
Import ListNotations.

#[local] Set Warnings "-register-all".

Local Open Scope string_scope.
Local Open Scope Z_scope.

(** ** Python strings *)

Module PyStr.

Definition code (c : ascii) : Z := Z.of_N (N_of_ascii c).

(** [str.isspace] on one character, for code points below 256. *)
Definition isspace (c : ascii) : bool :=
  let n := code c in
  ((9 <=? n) && (n <=? 13)) || ((28 <=? n) && (n <=? 32))
  || (n =? 133) || (n =? 160).

(** Removal of the leading and of the trailing characters that [sp]
    accepts. *)
Fixpoint lstrip (sp : ascii -> bool) (s : string) : string :=
  match s with
  | EmptyString => EmptyString
  | String c r => if sp c then lstrip sp r else s
  end.

Fixpoint rstrip (sp : ascii -> bool) (s : string) : string :=
  match s with
  | EmptyString => EmptyString
  | String c r =>
      match rstrip sp r with
      | EmptyString => if sp c then EmptyString else String c EmptyString
      | r' => String c r'
      end
  end.

(** [s.strip()] *)
Definition strip (s : string) : string := rstrip isspace (lstrip isspace s).

(** The whitespace of C's [isspace] in the C locale. *)
Definition c_isspace (c : ascii) : bool :=
  ((9 <=? code c) && (code c <=? 13)) || (code c =? 32).

Definition is_lower (c : ascii) : bool := (97 <=? code c) && (code c <=? 122).
Definition is_upper (c : ascii) : bool := (65 <=? code c) && (code c <=? 90).

(** [c.upper()] for one character.  Only the letters a-z are mapped: no
    other character has A, B, C or M as its upper case, which is all that
    [classify_xray] asks of the result. *)
Definition upper (c : ascii) : ascii :=
  if is_lower c then ascii_of_N (N_of_ascii c - 32) else c.

Definition lower (c : ascii) : ascii :=
  if is_upper c then ascii_of_N (N_of_ascii c + 32) else c.

Fixpoint lower_str (s : string) : string :=
  match s with
  | EmptyString => EmptyString
  | String c r => String (lower c) (lower_str r)
  end.

(** Truth value of a string: [bool(s)]. *)
Definition truthy (s : string) : bool :=
  match s with EmptyString => false | _ => true end.

(** [str(n)] for an [int]. *)
Definition of_int (n : Z) : string := NilZero.string_of_int (Z.to_int n).

Definition concat (l : list string) : string :=
  fold_right String.append EmptyString l.

End PyStr.

(** ** Python exceptions that can end the run *)

Inductive exn :=
| RequestException        (* requests.get / raise_for_status *)
| ParseError              (* ET.fromstring *)
| ValueError
| OverflowError
| SystemExit (msg : string)
| LibraryError (class_name : string).
  (* what a call into Pillow raises: AttributeError, OSError, ... *)

Definition result (A : Type) : Type := (exn + A)%type.

Definition ok {A} (a : A) : result A := inr a.
Definition raise {A} (e : exn) : result A := inl e.

Definition bind {A B} (r : result A) (f : A -> result B) : result B :=
  match r with
  | inl e => inl e
  | inr a => f a
  end.

Notation "x <- r ;; k" := (bind r (fun x => k))
  (at level 61, r at next level, right associativity).

(** ** Python floats *)

Module PyFloat.

Definition float := spec_float.

Definition prec : Z := 53.
Definition emax : Z := 1024.

Definition nan : float := S754_nan.
Definition inf (neg : bool) : float := S754_infinity neg.

(** [float(n)] for an [int]: round to nearest, ties to even (exact for
    [|n| < 2^53]); an [int] too large for a double raises. *)
Definition of_int (n : Z) : result float :=
  match binary_normalize prec emax n 0 false with
  | S754_infinity _ => raise OverflowError
  | x => ok x
  end.

(** The double that an [int] literal of the source stands for in a
    comparison with a float. *)
Definition lit (n : Z) : float := binary_normalize prec emax n 0 false.

(** [x < y] on floats: false as soon as one side is NaN. *)
Definition ltb (x y : float) : bool := SFltb x y.

(** The double nearest to [n / d], ties to even, with the sign [s]. *)
Definition of_ratio (s : bool) (n d : positive) : float :=
  SFdiv prec emax (S754_finite s n 0) (S754_finite false d 0).

(** The double nearest to [m * 10^e10]. *)
Definition of_decimal (s : bool) (m : Z) (e10 : Z) : float :=
  match m with
  | Zpos p =>
      if 0 <=? e10
      then of_ratio s (p * Z.to_pos (10 ^ e10)) 1
      else of_ratio s p (Z.to_pos (10 ^ (- e10)))
  | _ => S754_zero s
  end.

Definition is_digit (c : ascii) : bool :=
  (48 <=? PyStr.code c) && (PyStr.code c <=? 57).

Definition digit_val (c : ascii) : Z := PyStr.code c - 48.

(** The longest prefix of digits, and what follows it. *)
Fixpoint span_digits (s : string) : string * string :=
  match s with
  | EmptyString => (EmptyString, EmptyString)
  | String c r =>
      if is_digit c
      then let '(d, rest) := span_digits r in (String c d, rest)
      else (EmptyString, s)
  end.

Fixpoint digits_value (acc : Z) (s : string) : Z :=
  match s with
  | EmptyString => acc
  | String c r => digits_value (10 * acc + digit_val c) r
  end.

Definition take_sign (s : string) : bool * string :=
  match s with
  | String "-" r => (true, r)
  | String "+" r => (false, r)
  | _ => (false, s)
  end.

(** Underscores are allowed between two digits only; they are removed
    before the number is read. *)
Fixpoint drop_underscores (prev : ascii) (s : string) : option string :=
  match s with
  | EmptyString => if Ascii.eqb prev "_" then None else Some EmptyString
  | String c r =>
      if Ascii.eqb c "_"
      then if is_digit prev then drop_underscores c r else None
      else if Ascii.eqb prev "_" && negb (is_digit c) then None
      else option_map (String c) (drop_underscores c r)
  end.

(** The exponent part: empty, or [e] / [E], an optional sign and at least
    one digit, up to the end of the string. *)
Definition parse_exponent (s : string) : option Z :=
  match s with
  | EmptyString => Some 0
  | String c r =>
      if Ascii.eqb c "e" || Ascii.eqb c "E"
      then let '(neg, r1) := take_sign r in
           match span_digits r1 with
           | (String d ds, EmptyString) =>
               Some (cond_Zopp neg (digits_value 0 (String d ds)))
           | _ => None
           end
      else None
  end.

(** [digits [. digits] [exponent]] or [. digits [exponent]]. *)
Definition parse_number (neg : bool) (s : string) : option float :=
  let '(ip, r1) := span_digits s in
  let '(fp, r2) :=
    match r1 with
    | String "." r => span_digits r
    | _ => (EmptyString, r1)
    end in
  match (ip ++ fp)%string with
  | EmptyString => None
  | ds =>
      match parse_exponent r2 with
      | Some e => Some (of_decimal neg (digits_value 0 ds)
                                   (e - Z.of_nat (String.length fp)))
      | None => None
      end
  end.

Definition parse_signed (s : string) : option float :=
  let '(neg, r) := take_sign s in
  let l := PyStr.lower_str r in
  if String.eqb l "inf" || String.eqb l "infinity" then Some (inf neg)
  else if String.eqb l "nan" then Some nan
  else parse_number neg r.

(** The whitespace [float] removes around its argument: C whitespace, and
    the Unicode spaces from code point 127 on, which it first turns into
    ASCII spaces. *)
Definition arg_space (c : ascii) : bool :=
  PyStr.c_isspace c || ((127 <=? PyStr.code c) && PyStr.isspace c).

Definition strip_arg (s : string) : string :=
  PyStr.rstrip arg_space (PyStr.lstrip arg_space s).

(** [float(s)] for a [str]. *)
Definition of_str (s : string) : result float :=
  match drop_underscores zero (strip_arg s) with
  | None => raise ValueError
  | Some t =>
      match parse_signed t with
      | Some x => ok x
      | None => raise ValueError
      end
  end.

(** [int(x)]: truncation toward zero. *)
Definition to_int (x : float) : result Z :=
  match x with
  | S754_nan => raise ValueError
  | S754_infinity _ => raise OverflowError
  | S754_zero _ => ok 0
  | S754_finite s m e => ok (cond_Zopp s (Z.shiftl (Zpos m) e))
  end.

(** [n / d] rounded to the nearest integer, ties to even. *)
Definition round_half_even (n : Z) (d : Z) : Z :=
  let q := n / d in
  match (2 * (n mod d)) ?= d with
  | Lt => q
  | Gt => q + 1
  | Eq => if Z.even q then q else q + 1
  end.

(** The magnitude of a finite double in tenths, correctly rounded. *)
Definition tenths (m : positive) (e : Z) : Z :=
  match e with
  | Zneg p => round_half_even (10 * Zpos m) (Zpos (2 ^ p))
  | _ => 10 * Zpos m * 2 ^ e
  end.

Definition sign_str (s : bool) : string := if s then "-" else "".

(** [format(x, ".1f")] *)
Definition format_1f (x : float) : string :=
  match x with
  | S754_nan => "nan"
  | S754_infinity s => sign_str s ++ "inf"
  | S754_zero s => sign_str s ++ "0.0"
  | S754_finite s m e =>
      let t := tenths m e in
      sign_str s ++ PyStr.of_int (t / 10) ++ "." ++ PyStr.of_int (t mod 10)
  end.

End PyFloat.

(** ** ElementTree elements *)

Module ET.

(** An element: its tag, its [text] attribute ([None] when the element
    holds no character data before its first child) and its children in
    document order. *)
Inductive Element :=
| Elem (tag : string) (text : option string) (children : list Element).

Definition tag (e : Element) : string := let '(Elem t _ _) := e in t.
Definition text (e : Element) : option string := let '(Elem _ x _) := e in x.
Definition children (e : Element) : list Element := let '(Elem _ _ c) := e in c.

(** One step of a path: the children named [t] of every element of
    [es], in order. *)
Definition step (t : string) (es : list Element) : list Element :=
  flat_map (fun e => filter (fun c => String.eqb (tag c) t) (children e)) es.

Fixpoint select (path : list string) (es : list Element) : list Element :=
  match path with
  | [] => es
  | t :: p => select p (step t es)
  end.

(** [e.find("./t1/t2/...")]: the first element the path selects. *)
Definition find (e : Element) (path : list string) : option Element :=
  hd_error (select path [e]).

End ET.

Import ET.

(** ** The script *)

Definition float := PyFloat.float.

Definition safe_get (parent : Element) (tag : string) (default : string) : string :=
  match find parent [tag] with
  | None => default
  | Some el =>
      match text el with
      | None => default
      | Some t => PyStr.strip t
      end
  end.

Definition phrases : Type := string * string.

Definition classify_sfi (sfi : float) : phrases :=
  if PyFloat.ltb sfi (PyFloat.lit 80) then
    ("schwache obere KW-Baender", "weak upper HF bands")
  else if PyFloat.ltb sfi (PyFloat.lit 120) then
    ("gute 20-15m Bedingungen", "good 20-15m conditions")
  else if PyFloat.ltb sfi (PyFloat.lit 160) then
    ("sehr gute 20-10m Bedingungen", "very good 20-10m conditions")
  else
    ("exzellente 20-10m Bedingungen", "excellent 20-10m conditions").

Definition classify_k (k : Z) : phrases :=
  if k <=? 1 then
    ("Magnetfeld ruhig", "geomagnetic field quiet")
  else if k <=? 3 then
    ("Magnetfeld leicht unruhig", "geomagnetic field unsettled")
  else if k =? 4 then
    ("Magnetfeld gestoert", "geomagnetic field active")
  else if k <=? 5 then
    ("geomagnetischer Sturm (K>=5)", "minor geomagnetic storm (K>=5)")
  else
    ("starker geomagnetischer Sturm", "major geomagnetic storm").

Definition classify_aurora (a : float) : phrases :=
  if PyFloat.ltb a (PyFloat.lit 5) then
    ("Aurora-DX unwahrscheinlich", "Aurora DX unlikely")
  else if PyFloat.ltb a (PyFloat.lit 7) then
    ("moegliche Aurora-Aktivitaet", "possible auroral activity")
  else
    ("hohe Aurora-Wahrscheinlichkeit", "high auroral probability").

Definition classify_xray (xray_str : string) : phrases :=
  match xray_str with
  | EmptyString => ("X-Ray Hintergrund ruhig", "low X-ray background")
  | String c _ =>
      let level := PyStr.upper c in
      if Ascii.eqb level "A" || Ascii.eqb level "B" then
        ("X-Ray Hintergrund ruhig", "low X-ray background")
      else if Ascii.eqb level "C" then
        ("C-Flare Aktivitaet", "C-flare activity")
      else if Ascii.eqb level "M" then
        ("M-Flare - kurzzeitige HF-Daempfung moeglich",
         "M-flare - short HF fade possible")
      else
        ("X-Flare - HF-Blackouts moeglich", "X-flare - HF blackouts possible")
  end.

(** [root.find("./channel/item/solardata")], then
    [root.find("./channel/item")], then [SystemExit]. *)
Definition locate (root : Element) : result Element :=
  match find root ["channel"; "item"; "solardata"] with
  | Some item => ok item
  | None =>
      match find root ["channel"; "item"] with
      | Some item => ok item
      | None => raise (SystemExit "Konnte solardata-Element nicht finden")
      end
  end.

(** [float(s or 0)] *)
Definition float_or_0 (s : string) : result float :=
  if PyStr.truthy s then PyFloat.of_str s else PyFloat.of_int 0.

(** [int(float(s or 0))] *)
Definition int_float_or_0 (s : string) : result Z :=
  x <- float_or_0 s ;; PyFloat.to_int x.

(** The values read from the record node (lines 70 to 77 of the script). *)
Record SolarReport := {
  sfi : float;
  sn : string;
  a : Z;
  k : Z;
  xray : string;
  aurora : float;
  geomag : string;
  sig_noise : string
}.

Definition extract (item : Element) : result SolarReport :=
  sfi <- float_or_0 (safe_get item "solarflux" "0") ;;
  let sn := safe_get item "sunspots" "?" in
  a <- int_float_or_0 (safe_get item "aindex" "0") ;;
  k <- int_float_or_0 (safe_get item "kindex" "0") ;;
  let xray := safe_get item "xray" "" in
  aurora <- float_or_0 (safe_get item "aurora" "0") ;;
  let geomag := safe_get item "geomagfield" "NoRpt" in
  let sig_noise := safe_get item "signalnoise" "?" in
  ok {| sfi := sfi; sn := sn; a := a; k := k; xray := xray;
        aurora := aurora; geomag := geomag; sig_noise := sig_noise |}.

(** [xray or 'n/a'] *)
Definition xray_or_na (xray : string) : string :=
  if PyStr.truthy xray then xray else "n/a".

(** Lines 79 to 102: the two lists of display lines. *)
Definition format_lines (r : SolarReport) (now_utc : string)
  : result (list string * list string) :=
  let '(sfi_de, sfi_en) := classify_sfi (sfi r) in
  let '(k_de, k_en) := classify_k (k r) in
  let '(aur_de, aur_en) := classify_aurora (aurora r) in
  let '(xr_de, xr_en) := classify_xray (xray r) in
  sfi_int <- PyFloat.to_int (sfi r) ;;
  let lines_de := [
    PyStr.concat ["DL2HT Solarbericht - "; now_utc];
    PyStr.concat ["SFI "; PyStr.of_int sfi_int; " / SN "; sn r; " - "; sfi_de];
    PyStr.concat ["A="; PyStr.of_int (a r); ", K="; PyStr.of_int (k r); " - "; k_de];
    PyStr.concat ["Aurora-Index "; PyFloat.format_1f (aurora r); " - "; aur_de];
    PyStr.concat ["X-Ray "; xray_or_na (xray r); " - "; xr_de];
    PyStr.concat ["Geomag: "; geomag r; ", Rauschpegel: "; sig_noise r]
  ] in
  let lines_en := [
    PyStr.concat ["DL2HT Solar Report - "; now_utc];
    PyStr.concat ["SFI "; PyStr.of_int sfi_int; " / SSN "; sn r; " - "; sfi_en];
    PyStr.concat ["A="; PyStr.of_int (a r); ", K="; PyStr.of_int (k r); " - "; k_en];
    PyStr.concat ["Aurora index "; PyFloat.format_1f (aurora r); " - "; aur_en];
    PyStr.concat ["X-ray "; xray_or_na (xray r); " - "; xr_en];
    PyStr.concat ["Geomag: "; geomag r; ", Noise level: "; sig_noise r]
  ] in
  ok (lines_de, lines_en).

(** *** Drawing *)

Inductive font := Truetype (name : string) (size : Z) | DefaultFont.

Inductive draw_op :=
| DrawText (x y : Z) (s : string) (f : font)
| DrawLine (x0 y0 x1 y1 : Z).

(** A white 640 x 300 canvas and what was drawn on it, oldest first. *)
Definition image : Type := list draw_op.

(** [for line in lines: draw.text((10, y), line, ...); y += 18] *)
Fixpoint draw_lines (f : font) (y : Z) (lines : list string) : image * Z :=
  match lines with
  | [] => ([], y)
  | line :: rest =>
      let '(ops, y') := draw_lines f (y + 18) rest in
      (DrawText 10 y line f :: ops, y')
  end.

(** The calls into Pillow that lines 104 to 135 make.  Each of them can
    raise, depending on the installed library and on the machine. *)
Inductive lib_call :=
| ImageNew                          (* Image.new, line 105 *)
| ImageDrawDraw                     (* ImageDraw.Draw, line 106 *)
| LoadTruetype (size : Z)           (* ImageFont.truetype, lines 109, 110 *)
| LoadDefault                       (* ImageFont.load_default, lines 112, 113 *)
| Draw (op : draw_op)               (* draw.text, draw.line *)
| TextSize (f : font) (s : string)  (* draw.textsize, line 132 *)
| Save (img : image).               (* img.save, line 135 *)

(** What the run finds outside the script. *)
Record world := {
  response : result Element;   (* requests.get, raise_for_status, ET.fromstring *)
  now_utc : string;            (* datetime.now(timezone.utc).strftime(...) *)
  truetype_ok : bool;          (* false: loading arial.ttf raises OSError *)
  textsize : font -> string -> Z * Z;   (* what draw.textsize returns *)
  lib_raises : lib_call -> option exn
    (* the exception a call into Pillow raises, if it raises one that the
       script does not catch *)
}.

(** The canvas after lines 104 to 133, when none of the calls raises. *)

Definition render (w : world) (lines_de lines_en : list string) : image :=
  let width := 640 in
  let height := 300 in
  let '(font_big, font_small) :=
    if truetype_ok w
    then (Truetype "arial.ttf" 18, Truetype "arial.ttf" 14)
    else (DefaultFont, DefaultFont) in
  let y := 8 in
  let title := DrawText 10 y "Solar / HF Bedingungen - DL2HT (JO43VK)" font_big in
  let y := y + 26 in
  let '(de_ops, y) := draw_lines font_small y lines_de in
  let y := y + 4 in
  let rule := DrawLine 10 y (width - 10) y in
  let y := y + 8 in
  let '(en_ops, y) := draw_lines font_small y lines_en in
  let footer := "Data source: hamqsl.com / N0NBH" in
  let '(fw, fh) := textsize w font_small footer in
  ([title] ++ de_ops ++ [rule] ++ en_ops
   ++ [DrawText (width - fw - 10) (height - fh - 4) footer font_small])%list.

(** The calls of lines 104 to 135 in the order of the source.  When
    arial.ttf cannot be loaded, the first [truetype] call raises the
    [OSError] that the script catches, and [load_default] is called twice
    instead.  [draw.textsize] comes just before the last text, the footer. *)
Definition library_calls (w : world) (lines_de lines_en : list string)
  : list lib_call :=
  let img := render w lines_de lines_en in
  let font_small :=
    if truetype_ok w then Truetype "arial.ttf" 14 else DefaultFont in
  let body := (List.length img - 1)%nat in
  ([ImageNew; ImageDrawDraw]
   ++ (if truetype_ok w
       then [LoadTruetype 18; LoadTruetype 14]
       else [LoadDefault; LoadDefault])
   ++ map Draw (firstn body img)
   ++ [TextSize font_small "Data source: hamqsl.com / N0NBH"]
   ++ map Draw (skipn body img)
   ++ [Save img])%list.

(** The exception of the first call that raises. *)
Fixpoint first_error (raises : lib_call -> option exn) (calls : list lib_call)
  : option exn :=
  match calls with
  | [] => None
  | c :: rest =>
      match raises c with
      | Some e => Some e
      | None => first_error raises rest
      end
  end.

(** [main()]: the image that [img.save(OUTFILE)] has written, or the
    exception that ends the run. *)
Definition main (w : world) : result image :=
  root <- response w ;;
  item <- locate root ;;
  r <- extract item ;;
  lines <- format_lines r (now_utc w) ;;
  match first_error (lib_raises w) (library_calls w (fst lines) (snd lines)) with
  | Some e => raise e
  | None => ok (render w (fst lines) (snd lines))
  end.

(** The process as the caller sees it. *)
Definition exit_status (r : result image) : Z :=
  match r with
  | inr _ => 0
  | inl _ => 1
  end.

Definition saved_file (r : result image) : option image :=
  match r with
  | inr img => Some img
  | inl _ => None
  end.

(** What [SystemExit] prints on standard error. *)
Definition exit_message (r : result image) : option string :=
  match r with
  | inl (SystemExit msg) => Some msg
  | _ => None
  end.

(** ** The number a float stands for

    Used to state the thresholds of the classifiers and the numeric
    displays against the real line rather than against the floating-point
    comparison the code runs. *)

Module Real.

(** The value of the finite double [(-1)^s * m * 2^e]. *)
Definition finite_value (s : bool) (m : positive) (e : Z) : Q :=
  match e with
  | Zneg p => Qmake (cond_Zopp s (Zpos m)) (2 ^ p)
  | _ => inject_Z (cond_Zopp s (Zpos m) * 2 ^ e)
  end.

Inductive xreal := NegInf | Fin (q : Q) | PosInf.

(** NaN stands for no number. *)
Definition value (x : float) : option xreal :=
  match x with
  | S754_nan => None
  | S754_infinity s => Some (if s then NegInf else PosInf)
  | S754_zero _ => Some (Fin 0)
  | S754_finite s m e => Some (Fin (finite_value s m e))
  end.

Definition xlt (u v : xreal) : Prop :=
  match u, v with
  | NegInf, NegInf => False
  | NegInf, _ => True
  | Fin p, Fin q => (p < q)%Q
  | Fin _, PosInf => True
  | _, _ => False
  end.

Definition xle (u v : xreal) : Prop :=
  match u, v with
  | NegInf, _ => True
  | _, PosInf => True
  | Fin p, Fin q => (p <= q)%Q
  | _, _ => False
  end.

(** [x < q], [q <= x] and [x <= y] as statements about numbers; each is
    false when a NaN is involved. *)
Definition below (x : float) (q : Q) : Prop :=
  match value x with
  | Some v => xlt v (Fin q)
  | None => False
  end.

Definition at_least (x : float) (q : Q) : Prop :=
  match value x with
  | Some v => xle (Fin q) v
  | None => False
  end.

Definition le (x y : float) : Prop :=
  match value x, value y with
  | Some u, Some v => xle u v
  | _, _ => False
  end.

(** The number a finite float stands for (zero for the others). *)
Definition number (x : float) : Q :=
  match x with
  | S754_finite s m e => finite_value s m e
  | _ => 0%Q
  end.

(** Neither NaN nor an infinity. *)
Definition finite (x : float) : Prop := value x = Some (Fin (number x)).

Definition sign_of (x : float) : bool :=
  match x with
  | S754_zero s | S754_infinity s | S754_finite s _ _ => s
  | S754_nan => false
  end.

(** Truncation toward zero. *)
Definition trunc (q : Q) : Z := Z.quot (Qnum q) (Zpos (Qden q)).

(** A binary64 value in canonical form. *)
Definition valid (x : float) : Prop :=
  valid_binary PyFloat.prec PyFloat.emax x = true.

End Real.

(** ** The phrase pairs of the classifiers, by name *)

Definition sfi_weak : phrases := ("schwache obere KW-Baender", "weak upper HF bands").
Definition sfi_good : phrases := ("gute 20-15m Bedingungen", "good 20-15m conditions").
Definition sfi_very_good : phrases :=
  ("sehr gute 20-10m Bedingungen", "very good 20-10m conditions").
Definition sfi_excellent : phrases :=
  ("exzellente 20-10m Bedingungen", "excellent 20-10m conditions").

Definition k_quiet : phrases := ("Magnetfeld ruhig", "geomagnetic field quiet").
Definition k_unsettled : phrases :=
  ("Magnetfeld leicht unruhig", "geomagnetic field unsettled").
Definition k_active : phrases := ("Magnetfeld gestoert", "geomagnetic field active").
Definition k_minor_storm : phrases :=
  ("geomagnetischer Sturm (K>=5)", "minor geomagnetic storm (K>=5)").
Definition k_major_storm : phrases :=
  ("starker geomagnetischer Sturm", "major geomagnetic storm").

Definition aurora_unlikely : phrases := ("Aurora-DX unwahrscheinlich", "Aurora DX unlikely").
Definition aurora_possible : phrases :=
  ("moegliche Aurora-Aktivitaet", "possible auroral activity").
Definition aurora_high : phrases :=
  ("hohe Aurora-Wahrscheinlichkeit", "high auroral probability").

Definition xray_low : phrases := ("X-Ray Hintergrund ruhig", "low X-ray background").
Definition xray_c_flare : phrases := ("C-Flare Aktivitaet", "C-flare activity").
Definition xray_m_flare : phrases :=
  ("M-Flare - kurzzeitige HF-Daempfung moeglich", "M-flare - short HF fade possible").
Definition xray_x_flare : phrases :=
  ("X-Flare - HF-Blackouts moeglich", "X-flare - HF blackouts possible").

Definition phrases_eqb (p q : phrases) : bool :=
  String.eqb (fst p) (fst q) && String.eqb (snd p) (snd q).

(** The position of a solar-flux phrase pair in its ladder, lowest first. *)
Definition sfi_severity (p : phrases) : nat :=
  if phrases_eqb p sfi_weak then 0
  else if phrases_eqb p sfi_good then 1
  else if phrases_eqb p sfi_very_good then 2
  else 3.

(** [float(s)] followed by a classifier, as [main] chains them. *)
Definition classify_text (f : float -> phrases) (s : string) : result phrases :=
  x <- PyFloat.of_str s ;; ok (f x).

(** ** Statements about trees and strings *)

(** [at_path e p d]: [d] is reached from [e] by descending through
    children tagged as [p] lists. *)
Inductive at_path : Element -> list string -> Element -> Prop :=
| at_here e : at_path e [] e
| at_child e t p c d :
    In c (children e) -> tag c = t -> at_path c p d -> at_path e (t :: p) d.

(** A leaf field that [safe_get] replaces by its default: no child of that
    name, or a first child of that name without text. *)
Definition field_absent (item : Element) (t : string) : Prop :=
  find item [t] = None \/ exists el, find item [t] = Some el /\ text el = None.

(** A leaf field whose text is only whitespace. *)
Definition field_blank (item : Element) (t : string) : Prop :=
  exists el s, find item [t] = Some el /\ text el = Some s /\ PyStr.strip s = "".

Definition numeric_tags : list string := ["solarflux"; "aindex"; "kindex"; "aurora"].

Definition first_letter (s : string) : option ascii :=
  match s with
  | EmptyString => None
  | String c _ => Some c
  end.

(** The first character is the letter [up] or its lower case [low]. *)
Definition starts_with (s : string) (up low : ascii) : Prop :=
  first_letter s = Some up \/ first_letter s = Some low.

Fixpoint all_digits (s : string) : bool :=
  match s with
  | EmptyString => true
  | String c r => PyFloat.is_digit c && all_digits r
  end.

(** A decimal digit as a one-character string. *)
Definition digit_str (d : Z) : string :=
  String (ascii_of_N (Z.to_N (48 + d))) EmptyString.

(** ** Units for comparing canonical doubles *)

Definition emin : Z := -1074.

(** A finite double in units of [2^emin]. *)
Definition ulps (m : positive) (e : Z) : Z := Zpos m * 2 ^ (e - emin).

Definition scale : positive := 2 ^ 1074.

(** ** The feeds used as examples *)

Definition leaf (t x : string) : Element := Elem t (Some x) [].

Definition feed_of (record : Element) : Element :=
  Elem "rss" None [Elem "channel" None [Elem "item" None [record]]].

(** solarflux=150, sunspots=120, aindex=2, kindex=3, xray=C4, aurora=6.2,
    geomagfield=Active, signalnoise=S1. *)
Definition synthetic_fields : list Element :=
  [leaf "solarflux" "150"; leaf "sunspots" "120"; leaf "aindex" "2";
   leaf "kindex" "3"; leaf "xray" "C4"; leaf "aurora" "6.2";
   leaf "geomagfield" "Active"; leaf "signalnoise" "S1"].

Definition synthetic_record : Element := Elem "solardata" None synthetic_fields.

(** The same fields directly under [item]. *)
Definition synthetic_flat : Element :=
  Elem "rss" None [Elem "channel" None [Elem "item" None synthetic_fields]].


(** The synthetic record without its [kindex] element. *)
Definition record_no_kindex : Element :=
  Elem "solardata" None
    [leaf "solarflux" "150"; leaf "sunspots" "120"; leaf "aindex" "2";
     leaf "xray" "C4"; leaf "aurora" "6.2";
     leaf "geomagfield" "Active"; leaf "signalnoise" "S1"].

(** The synthetic record with [solarflux] reading inf. *)
Definition record_sfi_inf : Element :=
  Elem "solardata" None
    [leaf "solarflux" "inf"; leaf "sunspots" "120"; leaf "aindex" "2";
     leaf "kindex" "3"; leaf "xray" "C4"; leaf "aurora" "6.2";
     leaf "geomagfield" "Active"; leaf "signalnoise" "S1"].

(** The report read from it; its aurora index is the double nearest to
    6.2. *)
Definition report_sfi_inf : SolarReport :=
  {| sfi := PyFloat.inf false; sn := "120"; a := 2; k := 3; xray := "C4";
     aurora := PyFloat.of_ratio false 62 10; geomag := "Active";
     sig_noise := "S1" |}.

(** A feed without [channel]. *)
Definition feed_no_channel : Element := Elem "solar" None [synthetic_record].

(** A machine on which arial.ttf loads and no call into Pillow raises. *)
Definition world_of (root : Element) : world :=
  {| response := ok root;
     now_utc := "03 Nov 2026, 10:31 UTC";
     truetype_ok := true;
     textsize := fun _ _ => (200, 12);
     lib_raises := fun _ => None |}.

(** The synthetic record without [kindex] and with [aindex] reading N/A. *)
Definition record_no_kindex_na : Element :=
  Elem "solardata" None
    [leaf "solarflux" "150"; leaf "sunspots" "120"; leaf "aindex" "N/A";
     leaf "xray" "C4"; leaf "aurora" "6.2";
     leaf "geomagfield" "Active"; leaf "signalnoise" "S1"].

(** A machine like [world_of] whose Pillow has no [draw.textsize]. *)
Definition world_without_textsize (root : Element) : world :=
  {| response := ok root;
     now_utc := "03 Nov 2026, 10:31 UTC";
     truetype_ok := true;
     textsize := fun _ _ => (200, 12);
     lib_raises := fun c =>
       match c with
       | TextSize _ _ => Some (LibraryError "AttributeError")
       | _ => None
       end |}.

(** The run up to the two lists of lines (lines 60 to 102). *)
Definition display_lines (w : world) : result (list string * list string) :=
  root <- response w ;;
  item <- locate root ;;
  r <- extract item ;;
  format_lines r (now_utc w).

(** No whitespace character at the start nor at the end. *)
Definition ends_clean (s : string) : Prop :=
  (forall c r, s = String c r -> PyStr.isspace c = false)
  /\ (forall r c, s = (r ++ String c EmptyString)%string -> PyStr.isspace c = false).

(** ** Statements about the drawing and about whole records *)

Definition title_text : string := "Solar / HF Bedingungen - DL2HT (JO43VK)".
Definition footer_text : string := "Data source: hamqsl.com / N0NBH".

(** The fonts after the try / except of lines 108 to 113. *)
Definition title_font (w : world) : font :=
  if truetype_ok w then Truetype "arial.ttf" 18 else DefaultFont.
Definition body_font (w : world) : font :=
  if truetype_ok w then Truetype "arial.ttf" 14 else DefaultFont.

(** The font of a drawing operation, if it draws text. *)
Definition op_font (o : draw_op) : option font :=
  match o with
  | DrawText _ _ _ f => Some f
  | DrawLine _ _ _ _ => None
  end.

(** The strings drawn, in drawing order. *)
Fixpoint texts (img : image) : list string :=
  match img with
  | [] => []
  | DrawText _ _ s _ :: rest => s :: texts rest
  | DrawLine _ _ _ _ :: rest => texts rest
  end.

(** The eight leaf names [main] reads. *)
Definition record_tags : list string :=
  ["solarflux"; "sunspots"; "aindex"; "kindex"; "xray"; "aurora";
   "geomagfield"; "signalnoise"].

(** A text that [float(s or 0)] accepts. *)
Definition float_text (s : string) : Prop :=
  s = "" \/ exists x, PyFloat.of_str s = ok x.

(** A text that [int(float(s or 0))] accepts. *)
Definition int_text (s : string) : Prop :=
  s = "" \/ exists x, PyFloat.of_str s = ok x /\ Real.finite x.

(** No whitespace at either end. *)
Definition trimmed (s : string) : Prop := PyStr.strip s = s.

(** The ladders of [classify_sfi] and [classify_aurora] on integers. *)
Definition sfi_ladder (n : Z) : phrases :=
  if n <? 80 then sfi_weak
  else if n <? 120 then sfi_good
  else if n <? 160 then sfi_very_good
  else sfi_excellent.

Definition aurora_ladder (n : Z) : phrases :=
  if n <? 5 then aurora_unlikely
  else if n <? 7 then aurora_possible
  else aurora_high.

(** The value of a numeric field read as a string of digits. *)
Definition field_int (item : Element) (t : string) : Z :=
  PyFloat.digits_value 0 (safe_get item t "0").

(** A numeric field that is missing, blank or a string of digits with a
    value below [2^53]. *)
Definition field_is_int (item : Element) (t : string) : Prop :=
  all_digits (safe_get item t "0") = true /\ field_int item t < 2 ^ 53.

(** The position of a K-index phrase pair in its ladder, lowest first. *)
Definition k_severity (p : phrases) : nat :=
  if phrases_eqb p k_quiet then 0
  else if phrases_eqb p k_unsettled then 1
  else if phrases_eqb p k_active then 2
  else if phrases_eqb p k_minor_storm then 3
  else 4.

(** The same for the aurora ladder. *)
Definition aurora_severity (p : phrases) : nat :=
  if phrases_eqb p aurora_unlikely then 0
  else if phrases_eqb p aurora_possible then 1
  else 2.

(** A string of whitespace only. *)
Fixpoint all_space (s : string) : bool :=
  match s with
  | EmptyString => true
  | String c r => PyStr.isspace c && all_space r
  end.

(** * Facts *)

Import Real.

(** ** Canonical doubles and the order of their values *)

Lemma digits2_bound (m : positive) :
  2 ^ (Zpos (digits2_pos m) - 1) <= Zpos m < 2 ^ Zpos (digits2_pos m).
Proof.
  induction m as [m IH | m IH |]; cbn [digits2_pos].
  - rewrite Pos2Z.inj_succ.
    replace (Z.succ (Zpos (digits2_pos m)) - 1)
      with (Z.succ (Zpos (digits2_pos m) - 1)) by lia.
    rewrite !Z.pow_succ_r by lia. lia.
  - rewrite Pos2Z.inj_succ.
    replace (Z.succ (Zpos (digits2_pos m)) - 1)
      with (Z.succ (Zpos (digits2_pos m) - 1)) by lia.
    rewrite !Z.pow_succ_r by lia. lia.
  - cbn. lia.
Qed.

Lemma canonical_inv m e :
  canonical_mantissa PyFloat.prec PyFloat.emax m e = true ->
  emin <= e /\ Zpos (digits2_pos m) <= 53
  /\ (emin < e -> Zpos (digits2_pos m) = 53).
Proof.
  unfold canonical_mantissa, fexp, SpecFloat.emin, PyFloat.prec, PyFloat.emax, emin.
  intros H. apply Z.eqb_eq in H. lia.
Qed.

(** Of two canonical doubles, the one with the smaller exponent is the
    smaller number. *)
Lemma ulps_lt m1 e1 m2 e2 :
  canonical_mantissa PyFloat.prec PyFloat.emax m1 e1 = true ->
  canonical_mantissa PyFloat.prec PyFloat.emax m2 e2 = true ->
  e1 < e2 -> ulps m1 e1 < ulps m2 e2.
Proof.
  intros H1 H2 Hlt.
  apply canonical_inv in H1, H2.
  destruct H1 as (He1 & Hd1 & _), H2 as (He2 & _ & Hd2).
  specialize (Hd2 ltac:(lia)).
  pose proof (digits2_bound m1) as [_ B1].
  pose proof (digits2_bound m2) as [B2 _].
  rewrite Hd2 in B2.
  assert (H : Zpos m1 < 2 ^ 53).
  { eapply Z.lt_le_trans; [exact B1|]. apply Z.pow_le_mono_r; lia. }
  unfold ulps.
  assert (P1 : 0 < 2 ^ (e1 - emin)) by (apply Z.pow_pos_nonneg; lia).
  replace (e2 - emin) with ((e2 - e1 - 1) + 1 + (e1 - emin)) by lia.
  rewrite !Z.pow_add_r by lia.
  assert (P2 : 1 <= 2 ^ (e2 - e1 - 1)) by (apply (Z.pow_le_mono_r 2 0); lia).
  change (2 ^ 1) with 2. change (53 - 1) with 52 in B2.
  assert (E : 2 ^ 53 = 2 * 2 ^ 52) by reflexivity.
  rewrite E in H. clear E.
  generalize dependent (2 ^ 52). intros A B2 H.
  generalize dependent (2 ^ (e1 - emin)). intros P HP.
  generalize dependent (2 ^ (e2 - e1 - 1)). intros R HR.
  apply Z.lt_le_trans with (2 * A * P).
  - apply Z.mul_lt_mono_pos_r; lia.
  - replace (Z.pos m2 * (R * 2 * P)) with ((Z.pos m2 * R) * (2 * P)) by ring.
    replace (2 * A * P) with (A * (2 * P)) by ring.
    apply Z.mul_le_mono_nonneg_r; [lia|]. nia.
Qed.
Lemma scale_pow : Zpos scale = 2 ^ (- emin).
Proof. unfold scale. rewrite Pos2Z.inj_pow. reflexivity. Qed.

Lemma finite_value_ulps s m e :
  emin <= e -> (finite_value s m e == cond_Zopp s (ulps m e) # scale)%Q.
Proof.
  intros He. unfold Qeq, ulps.
  assert (Hs : forall z, cond_Zopp s (Zpos m * z) = cond_Zopp s (Zpos m) * z).
  { intros z. destruct s; cbn [cond_Zopp]; lia. }
  rewrite Hs.
  destruct e as [| p | p]; cbn [finite_value inject_Z Qnum Qden].
  - rewrite scale_pow. change (0 - emin) with (- emin). change (2 ^ 0) with 1. lia.
  - rewrite scale_pow.
    replace (Zpos p - emin) with (Zpos p + - emin) by lia.
    rewrite Z.pow_add_r by (unfold emin; lia). lia.
  - rewrite scale_pow, Pos2Z.inj_pow.
    replace (- emin) with ((Zneg p - emin) + Zpos p) by lia.
    rewrite Z.pow_add_r by lia. lia.
Qed.

Lemma Qlt_same_den (a b : Z) (d : positive) : (a # d < b # d)%Q <-> a < b.
Proof.
  unfold Qlt. cbn [Qnum Qden]. split; intros H.
  - apply Z.mul_lt_mono_pos_r in H; lia.
  - apply Z.mul_lt_mono_pos_r; lia.
Qed.

Lemma ulps_pos m e : emin <= e -> 0 < ulps m e.
Proof.
  intros He. unfold ulps.
  assert (0 < 2 ^ (e - emin)) by (apply Z.pow_pos_nonneg; lia). lia.
Qed.

Lemma finite_value_lt s1 m1 e1 s2 m2 e2 :
  emin <= e1 -> emin <= e2 ->
  (finite_value s1 m1 e1 < finite_value s2 m2 e2)%Q <->
  cond_Zopp s1 (ulps m1 e1) < cond_Zopp s2 (ulps m2 e2).
Proof.
  intros H1 H2.
  rewrite (finite_value_ulps s1 m1 e1 H1), (finite_value_ulps s2 m2 e2 H2).
  apply Qlt_same_den.
Qed.

Lemma ltb_finite_pos x my ey :
  valid x ->
  canonical_mantissa PyFloat.prec PyFloat.emax my ey = true ->
  PyFloat.ltb x (S754_finite false my ey) = true <-> below x (finite_value false my ey).
Proof.
  intros Vx Cy.
  pose proof (canonical_inv _ _ Cy) as (Hey & _ & _).
  pose proof (ulps_pos my ey Hey) as Py.
  unfold PyFloat.ltb, SFltb, below.
  destruct x as [s | s | | s m e]; cbn [SFcompare value xlt].
  - rewrite (finite_value_ulps false my ey Hey).
    unfold Qlt. cbn [Qnum Qden cond_Zopp].
    split; [intros _; lia | reflexivity].
  - destruct s; split; intros H; try reflexivity; try exact I;
      try discriminate; try contradiction.
  - split; [discriminate | contradiction].
  - unfold valid, valid_binary, bounded in Vx.
    apply andb_prop in Vx. destruct Vx as [Cx _].
    pose proof (canonical_inv _ _ Cx) as (He & _ & _).
    pose proof (ulps_pos m e He) as Px.
    rewrite finite_value_lt by assumption.
    destruct s; cbn [cond_Zopp].
    + split; [intros _; lia | reflexivity].
    + destruct (Z.compare_spec e ey) as [Heq | Hlt | Hgt].
      * subst ey. rewrite Pos.compare_cont_spec. cbn [Pos.switch_Eq].
        unfold ulps in *.
        destruct (Pos.compare_spec m my) as [E | L | G]; split; intros H;
          try reflexivity; try discriminate; try nia.
      * pose proof (ulps_lt _ _ _ _ Cx Cy Hlt). split; [intros _; lia | reflexivity].
      * pose proof (ulps_lt _ _ _ _ Cy Cx Hgt). split; [discriminate | lia].
Qed.

Lemma below_ext x p q : (p == q)%Q -> below x p <-> below x q.
Proof.
  intros E. unfold below. destruct (value x) as [[| v |] |]; cbn [xlt]; try tauto.
  rewrite E. tauto.
Qed.

Lemma at_least_not_below x q : x <> S754_nan -> at_least x q <-> ~ below x q.
Proof.
  intros Hn. unfold at_least, below.
  destruct x as [s | s | | s m e]; cbn [value xle xlt]; try congruence.
  - split; [apply Qle_not_lt | apply Qnot_lt_le].
  - destruct s; cbn [xle xlt]; tauto.
  - split; [apply Qle_not_lt | apply Qnot_lt_le].
Qed.

Lemma ltb_lit x n my ey :
  PyFloat.lit n = S754_finite false my ey ->
  canonical_mantissa PyFloat.prec PyFloat.emax my ey = true ->
  (finite_value false my ey == inject_Z n)%Q ->
  valid x ->
  PyFloat.ltb x (PyFloat.lit n) = true <-> below x (inject_Z n).
Proof.
  intros El C E V. rewrite El, (ltb_finite_pos x my ey V C).
  apply below_ext, E.
Qed.

Lemma ltb_80 x : valid x -> PyFloat.ltb x (PyFloat.lit 80) = true <-> below x 80.
Proof. eapply ltb_lit; reflexivity. Qed.
Lemma ltb_120 x : valid x -> PyFloat.ltb x (PyFloat.lit 120) = true <-> below x 120.
Proof. eapply ltb_lit; reflexivity. Qed.
Lemma ltb_160 x : valid x -> PyFloat.ltb x (PyFloat.lit 160) = true <-> below x 160.
Proof. eapply ltb_lit; reflexivity. Qed.
Lemma ltb_5 x : valid x -> PyFloat.ltb x (PyFloat.lit 5) = true <-> below x 5.
Proof. eapply ltb_lit; reflexivity. Qed.
Lemma ltb_7 x : valid x -> PyFloat.ltb x (PyFloat.lit 7) = true <-> below x 7.
Proof. eapply ltb_lit; reflexivity. Qed.

Lemma below_mono x p q : (p <= q)%Q -> below x p -> below x q.
Proof.
  intros L. unfold below. destruct (value x) as [[| v |] |]; cbn [xlt]; try tauto.
  intros H. eapply Qlt_le_trans; eassumption.
Qed.

Lemma le_below x y q : le x y -> below y q -> below x q.
Proof.
  unfold le, below.
  destruct (value x) as [[| u |] |], (value y) as [[| v |] |]; cbn [xle xlt];
    try tauto.
  intros L H. eapply Qle_lt_trans; eassumption.
Qed.

(** A comparison with a literal that holds at [y] holds below [y]. *)
Lemma ltb_lit_mono x y n :
  (forall z, valid z ->
     PyFloat.ltb z (PyFloat.lit n) = true <-> below z (inject_Z n)) ->
  valid x -> valid y -> le x y ->
  PyFloat.ltb y (PyFloat.lit n) = true -> PyFloat.ltb x (PyFloat.lit n) = true.
Proof.
  intros R Vx Vy L H. apply R; [exact Vx|]. apply (le_below x y); [exact L|].
  apply R; assumption.
Qed.

(** A negative number compares below every positive literal, canonical
    or not. *)
Lemma negative_ltb x my ey :
  below x 0 -> PyFloat.ltb x (S754_finite false my ey) = true.
Proof.
  unfold below, PyFloat.ltb, SFltb.
  destruct x as [s | s | | s m e]; cbn [value xlt SFcompare].
  - intros H. discriminate H.
  - destruct s; [reflexivity | intros []].
  - intros [].
  - destruct s; [reflexivity|].
    intros H. exfalso. revert H. unfold finite_value, Qlt.
    destruct e; cbn [Qnum Qden inject_Z cond_Zopp]; lia.
Qed.

(** ** classify_sfi *)

Lemma classify_sfi_cases x :
  classify_sfi x =
    if PyFloat.ltb x (PyFloat.lit 80) then sfi_weak
    else if PyFloat.ltb x (PyFloat.lit 120) then sfi_good
    else if PyFloat.ltb x (PyFloat.lit 160) then sfi_very_good
    else sfi_excellent.
Proof. reflexivity. Qed.

Lemma classify_sfi_bands x :
  valid x -> x <> PyFloat.nan ->
  (classify_sfi x = sfi_weak <-> below x 80)
  /\ (classify_sfi x = sfi_good <-> at_least x 80 /\ below x 120)
  /\ (classify_sfi x = sfi_very_good <-> at_least x 120 /\ below x 160)
  /\ (classify_sfi x = sfi_excellent <-> at_least x 160).
Proof.
  intros V N.
  rewrite !(at_least_not_below x) by exact N.
  pose proof (ltb_80 x V) as H80.
  pose proof (ltb_120 x V) as H120.
  pose proof (ltb_160 x V) as H160.
  pose proof (below_mono x 80 120 ltac:(discriminate)) as M1.
  pose proof (below_mono x 120 160 ltac:(discriminate)) as M2.
  rewrite classify_sfi_cases.
  destruct (PyFloat.ltb x (PyFloat.lit 80));
    destruct (PyFloat.ltb x (PyFloat.lit 120));
    destruct (PyFloat.ltb x (PyFloat.lit 160));
    repeat split; intros; try discriminate; try reflexivity;
    intuition (try discriminate; try congruence).
Qed.

Lemma classify_sfi_monotone x y :
  valid x -> valid y -> le x y ->
  (sfi_severity (classify_sfi x) <= sfi_severity (classify_sfi y))%nat.
Proof.
  intros Vx Vy L.
  pose proof (ltb_lit_mono x y 80 ltb_80 Vx Vy L) as M80.
  pose proof (ltb_lit_mono x y 120 ltb_120 Vx Vy L) as M120.
  pose proof (ltb_lit_mono x y 160 ltb_160 Vx Vy L) as M160.
  pose proof (ltb_80 x Vx) as X80. pose proof (ltb_120 x Vx) as X120.
  pose proof (ltb_160 x Vx) as X160.
  pose proof (below_mono x 80 120 ltac:(discriminate)) as M1.
  pose proof (below_mono x 120 160 ltac:(discriminate)) as M2.
  rewrite !classify_sfi_cases.
  destruct (PyFloat.ltb y (PyFloat.lit 80));
    destruct (PyFloat.ltb y (PyFloat.lit 120));
    destruct (PyFloat.ltb y (PyFloat.lit 160));
    destruct (PyFloat.ltb x (PyFloat.lit 80));
    destruct (PyFloat.ltb x (PyFloat.lit 120));
    destruct (PyFloat.ltb x (PyFloat.lit 160));
    cbn; try lia;
    try (specialize (M80 eq_refl); discriminate);
    try (specialize (M120 eq_refl); discriminate);
    try (specialize (M160 eq_refl); discriminate);
    intuition discriminate.
Qed.

Lemma classify_sfi_boundaries :
  classify_text classify_sfi "79.9" = ok sfi_weak
  /\ classify_text classify_sfi "80" = ok sfi_good
  /\ classify_text classify_sfi "119.9" = ok sfi_good
  /\ classify_text classify_sfi "120" = ok sfi_very_good
  /\ classify_text classify_sfi "159.9" = ok sfi_very_good
  /\ classify_text classify_sfi "160" = ok sfi_excellent.
Proof. repeat split; vm_compute; reflexivity. Qed.

(** C3, as the code has it: for every binary64 input [x] other than NaN,
    [classify_sfi x] is the weak pair iff [x < 80], the good pair iff
    [80 <= x < 120], the very good pair iff [120 <= x < 160] and the
    excellent pair iff [160 <= x]; severity does not decrease when the
    input grows; the texts 79.9, 80, 119.9, 120, 159.9 and 160 read as
    weak, good, good, very good, very good and excellent.  A NaN compares
    false with every threshold and so receives the excellent pair. *)
Theorem classify_sfi_spec (x : float) (Hv : valid x) (Hn : x <> PyFloat.nan) :
  ((classify_sfi x = sfi_weak <-> below x 80)
   /\ (classify_sfi x = sfi_good <-> at_least x 80 /\ below x 120)
   /\ (classify_sfi x = sfi_very_good <-> at_least x 120 /\ below x 160)
   /\ (classify_sfi x = sfi_excellent <-> at_least x 160))
  /\ (forall y, valid y -> le x y ->
        (sfi_severity (classify_sfi x) <= sfi_severity (classify_sfi y))%nat)
  /\ (classify_text classify_sfi "79.9" = ok sfi_weak
      /\ classify_text classify_sfi "80" = ok sfi_good
      /\ classify_text classify_sfi "119.9" = ok sfi_good
      /\ classify_text classify_sfi "120" = ok sfi_very_good
      /\ classify_text classify_sfi "159.9" = ok sfi_very_good
      /\ classify_text classify_sfi "160" = ok sfi_excellent)
  /\ classify_sfi PyFloat.nan = sfi_excellent.
Proof.
  split; [exact (classify_sfi_bands x Hv Hn)|].
  split; [intros y Vy L; exact (classify_sfi_monotone x y Hv Vy L)|].
  split; [exact classify_sfi_boundaries | reflexivity].
Qed.

Lemma classify_sfi_spec_witness :
  valid (PyFloat.lit 100) /\ PyFloat.lit 100 <> PyFloat.nan
  /\ (classify_sfi (PyFloat.lit 100) = sfi_good
      <-> at_least (PyFloat.lit 100) 80 /\ below (PyFloat.lit 100) 120).
Proof.
  split; [reflexivity|]. split; [discriminate|].
  apply (classify_sfi_spec (PyFloat.lit 100)); [reflexivity | discriminate].
Defined.

(** [float] reads the text nan as a NaN, which is a canonical value. *)
Lemma nan_from_text : PyFloat.of_str "nan" = ok PyFloat.nan /\ valid PyFloat.nan.
Proof. split; reflexivity. Qed.

(** C3 as written fails at NaN: the excellent pair is returned although
    [NaN >= 160] does not hold. *)
Lemma classify_sfi_nan_counterexample :
  ~ (classify_sfi PyFloat.nan = sfi_excellent <-> at_least PyFloat.nan 160).
Proof. intros [H _]. exact (H eq_refl). Qed.

(** ** classify_aurora *)

Lemma classify_aurora_cases x :
  classify_aurora x =
    if PyFloat.ltb x (PyFloat.lit 5) then aurora_unlikely
    else if PyFloat.ltb x (PyFloat.lit 7) then aurora_possible
    else aurora_high.
Proof. reflexivity. Qed.

Lemma classify_aurora_bands x :
  valid x -> x <> PyFloat.nan ->
  (classify_aurora x = aurora_unlikely <-> below x 5)
  /\ (classify_aurora x = aurora_possible <-> at_least x 5 /\ below x 7)
  /\ (classify_aurora x = aurora_high <-> at_least x 7).
Proof.
  intros V N.
  rewrite !(at_least_not_below x) by exact N.
  pose proof (ltb_5 x V) as H5.
  pose proof (ltb_7 x V) as H7.
  pose proof (below_mono x 5 7 ltac:(discriminate)) as M1.
  rewrite classify_aurora_cases.
  destruct (PyFloat.ltb x (PyFloat.lit 5));
    destruct (PyFloat.ltb x (PyFloat.lit 7));
    repeat split; intros; try discriminate; try reflexivity;
    intuition (try discriminate; try congruence).
Qed.

Lemma classify_aurora_boundaries :
  classify_text classify_aurora "4.9" = ok aurora_unlikely
  /\ classify_text classify_aurora "5" = ok aurora_possible
  /\ classify_text classify_aurora "6.9" = ok aurora_possible
  /\ classify_text classify_aurora "7" = ok aurora_high.
Proof. repeat split; vm_compute; reflexivity. Qed.

(** C6, as the code has it: for every binary64 input [x] other than NaN,
    [classify_aurora x] is the unlikely pair iff [x < 5], the possible pair
    iff [5 <= x < 7] and the high-probability pair iff [7 <= x]; the texts
    4.9, 5, 6.9 and 7 read as unlikely, possible, possible and high.  A NaN
    receives the high-probability pair. *)
Theorem classify_aurora_spec (x : float) (Hv : valid x) (Hn : x <> PyFloat.nan) :
  ((classify_aurora x = aurora_unlikely <-> below x 5)
   /\ (classify_aurora x = aurora_possible <-> at_least x 5 /\ below x 7)
   /\ (classify_aurora x = aurora_high <-> at_least x 7))
  /\ (classify_text classify_aurora "4.9" = ok aurora_unlikely
      /\ classify_text classify_aurora "5" = ok aurora_possible
      /\ classify_text classify_aurora "6.9" = ok aurora_possible
      /\ classify_text classify_aurora "7" = ok aurora_high)
  /\ classify_aurora PyFloat.nan = aurora_high.
Proof.
  split; [exact (classify_aurora_bands x Hv Hn)|].
  split; [exact classify_aurora_boundaries | reflexivity].
Qed.

Lemma classify_aurora_spec_witness :
  valid (PyFloat.lit 6) /\ PyFloat.lit 6 <> PyFloat.nan
  /\ (classify_aurora (PyFloat.lit 6) = aurora_possible
      <-> at_least (PyFloat.lit 6) 5 /\ below (PyFloat.lit 6) 7).
Proof.
  split; [reflexivity|]. split; [discriminate|].
  apply (classify_aurora_spec (PyFloat.lit 6)); [reflexivity | discriminate].
Defined.

(** C6 as written fails at NaN: the high-probability pair is returned
    although [NaN >= 7] does not hold. *)
Lemma classify_aurora_nan_counterexample :
  ~ (classify_aurora PyFloat.nan = aurora_high <-> at_least PyFloat.nan 7).
Proof. intros [H _]. exact (H eq_refl). Qed.

(** ** classify_k *)

Lemma classify_k_cases k :
  classify_k k =
    if k <=? 1 then k_quiet
    else if k <=? 3 then k_unsettled
    else if k =? 4 then k_active
    else if k <=? 5 then k_minor_storm
    else k_major_storm.
Proof. reflexivity. Qed.

(** C4: for every integer [k], [classify_k k] is the quiet pair iff
    [k <= 1], the unsettled pair iff [2 <= k <= 3], the active pair iff
    [k = 4], the minor-storm pair iff [k = 5] and the major-storm pair iff
    [k > 5]; 1, 3, 4, 5 and 6 read as quiet, unsettled, active, minor storm
    and major storm. *)
Theorem classify_k_spec (k : Z) :
  ((classify_k k = k_quiet <-> k <= 1)
   /\ (classify_k k = k_unsettled <-> 2 <= k <= 3)
   /\ (classify_k k = k_active <-> k = 4)
   /\ (classify_k k = k_minor_storm <-> k = 5)
   /\ (classify_k k = k_major_storm <-> 5 < k))
  /\ (classify_k 1 = k_quiet /\ classify_k 3 = k_unsettled
      /\ classify_k 4 = k_active /\ classify_k 5 = k_minor_storm
      /\ classify_k 6 = k_major_storm).
Proof.
  split; [|repeat split].
  rewrite classify_k_cases.
  destruct (Z.leb_spec k 1); [repeat split; intros; try discriminate; try reflexivity; try lia|].
  destruct (Z.leb_spec k 3); [repeat split; intros; try discriminate; try reflexivity; try lia|].
  destruct (Z.eqb_spec k 4); [repeat split; intros; try discriminate; try reflexivity; try lia|].
  destruct (Z.leb_spec k 5); repeat split; intros; try discriminate; try reflexivity; try lia.
Qed.


(** ** classify_xray *)

Ltac by_all_chars c :=
  destruct c as [[] [] [] [] [] [] [] []]; vm_compute;
  (split; [intros H; first [discriminate H | left; reflexivity | right; reflexivity]
          | intros [H | H]; first [reflexivity | discriminate H]]).

Lemma upper_A c : Ascii.eqb (PyStr.upper c) "A" = true <-> c = "A"%char \/ c = "a"%char.
Proof. by_all_chars c. Qed.
Lemma upper_B c : Ascii.eqb (PyStr.upper c) "B" = true <-> c = "B"%char \/ c = "b"%char.
Proof. by_all_chars c. Qed.
Lemma upper_C c : Ascii.eqb (PyStr.upper c) "C" = true <-> c = "C"%char \/ c = "c"%char.
Proof. by_all_chars c. Qed.
Lemma upper_M c : Ascii.eqb (PyStr.upper c) "M" = true <-> c = "M"%char \/ c = "m"%char.
Proof. by_all_chars c. Qed.

Lemma starts_with_cons c r up low :
  starts_with (String c r) up low <-> c = up \/ c = low.
Proof.
  unfold starts_with. cbn [first_letter].
  split; intros [H | H]; first [left; congruence | right; congruence].
Qed.

Lemma classify_xray_cons c r :
  classify_xray (String c r) =
    if Ascii.eqb (PyStr.upper c) "A" || Ascii.eqb (PyStr.upper c) "B" then xray_low
    else if Ascii.eqb (PyStr.upper c) "C" then xray_c_flare
    else if Ascii.eqb (PyStr.upper c) "M" then xray_m_flare
    else xray_x_flare.
Proof. reflexivity. Qed.

Lemma not_false_true (P : Prop) : (false = true <-> P) -> ~ P.
Proof. intros [_ H] p. discriminate (H p). Qed.

(** C5: for every string, [classify_xray] returns the low-background pair
    iff the string is empty or starts with A or B in either case, the
    C-flare pair iff it starts with C or c, the M-flare pair iff it starts
    with M or m, and the X-flare pair for every other non-empty string; the
    empty string and B5 read as low background, C3 and c3 as C-flare, M1 as
    M-flare and X2 as X-flare. *)
Theorem classify_xray_spec (s : string) :
  ((classify_xray s = xray_low <->
      s = "" \/ starts_with s "A" "a" \/ starts_with s "B" "b")
   /\ (classify_xray s = xray_c_flare <-> starts_with s "C" "c")
   /\ (classify_xray s = xray_m_flare <-> starts_with s "M" "m")
   /\ (classify_xray s = xray_x_flare <->
        s <> "" /\ ~ starts_with s "A" "a" /\ ~ starts_with s "B" "b"
        /\ ~ starts_with s "C" "c" /\ ~ starts_with s "M" "m"))
  /\ (classify_xray "" = xray_low /\ classify_xray "B5" = xray_low
      /\ classify_xray "C3" = xray_c_flare /\ classify_xray "c3" = xray_c_flare
      /\ classify_xray "M1" = xray_m_flare /\ classify_xray "X2" = xray_x_flare).
Proof.
  split; [|repeat split].
  destruct s as [|c r].
  - unfold starts_with; cbn [first_letter].
    repeat split; intros; try discriminate; try reflexivity;
      intuition (try discriminate; try congruence).
  - rewrite !starts_with_cons, classify_xray_cons.
    pose proof (upper_A c) as HA. pose proof (upper_B c) as HB.
    pose proof (upper_C c) as HC. pose proof (upper_M c) as HM.
    destruct (Ascii.eqb (PyStr.upper c) "A") eqn:EA.
    { assert (PA : c = "A"%char \/ c = "a"%char) by (apply HA; reflexivity).
      assert (NC : ~ (c = "C"%char \/ c = "c"%char)) by (destruct PA; subst; intros [|]; discriminate).
      assert (NM : ~ (c = "M"%char \/ c = "m"%char)) by (destruct PA; subst; intros [|]; discriminate).
      cbn [orb]. repeat split; intros; try discriminate; try reflexivity;
        intuition (try discriminate; try congruence). }
    pose proof (not_false_true _ HA) as NA.
    destruct (Ascii.eqb (PyStr.upper c) "B") eqn:EB.
    { assert (PB : c = "B"%char \/ c = "b"%char) by (apply HB; reflexivity).
      assert (NC : ~ (c = "C"%char \/ c = "c"%char)) by (destruct PB; subst; intros [|]; discriminate).
      assert (NM : ~ (c = "M"%char \/ c = "m"%char)) by (destruct PB; subst; intros [|]; discriminate).
      cbn [orb]. repeat split; intros; try discriminate; try reflexivity;
        intuition (try discriminate; try congruence). }
    pose proof (not_false_true _ HB) as NB.
    cbn [orb].
    destruct (Ascii.eqb (PyStr.upper c) "C") eqn:EC.
    { assert (PC : c = "C"%char \/ c = "c"%char) by (apply HC; reflexivity).
      assert (NM : ~ (c = "M"%char \/ c = "m"%char)) by (destruct PC; subst; intros [|]; discriminate).
      repeat split; intros; try discriminate; try reflexivity;
        intuition (try discriminate; try congruence). }
    pose proof (not_false_true _ HC) as NC.
    destruct (Ascii.eqb (PyStr.upper c) "M") eqn:EM.
    { assert (PM : c = "M"%char \/ c = "m"%char) by (apply HM; reflexivity).
      repeat split; intros; try discriminate; try reflexivity;
        intuition (try discriminate; try congruence). }
    pose proof (not_false_true _ HM) as NM.
    repeat split; intros; try discriminate; try reflexivity; try tauto;
      intuition discriminate.
Qed.

(** ** Totality of the classifiers *)

(** C10: every classifier returns, for every input, one pair of its own
    ladder, and the pairs of a ladder are distinct; a negative solar flux
    gives the weak pair, a negative K index the quiet pair and a negative
    aurora index the unlikely pair. *)
Theorem classifiers_total :
  (forall x : float,
      In (classify_sfi x) [sfi_weak; sfi_good; sfi_very_good; sfi_excellent])
  /\ (forall k : Z,
      In (classify_k k)
         [k_quiet; k_unsettled; k_active; k_minor_storm; k_major_storm])
  /\ (forall x : float,
      In (classify_aurora x) [aurora_unlikely; aurora_possible; aurora_high])
  /\ (forall s : string,
      In (classify_xray s) [xray_low; xray_c_flare; xray_m_flare; xray_x_flare])
  /\ (NoDup [sfi_weak; sfi_good; sfi_very_good; sfi_excellent]
      /\ NoDup [k_quiet; k_unsettled; k_active; k_minor_storm; k_major_storm]
      /\ NoDup [aurora_unlikely; aurora_possible; aurora_high]
      /\ NoDup [xray_low; xray_c_flare; xray_m_flare; xray_x_flare])
  /\ (forall x : float, below x 0 -> classify_sfi x = sfi_weak)
  /\ (forall k : Z, k < 0 -> classify_k k = k_quiet)
  /\ (forall x : float, below x 0 -> classify_aurora x = aurora_unlikely).
Proof.
  repeat match goal with |- _ /\ _ => split end.
  - intros x. rewrite classify_sfi_cases.
    destruct (PyFloat.ltb x (PyFloat.lit 80));
      destruct (PyFloat.ltb x (PyFloat.lit 120));
      destruct (PyFloat.ltb x (PyFloat.lit 160)); cbn [In]; tauto.
  - intros k. rewrite classify_k_cases.
    destruct (k <=? 1); destruct (k <=? 3); destruct (k =? 4);
      destruct (k <=? 5); cbn [In]; tauto.
  - intros x. rewrite classify_aurora_cases.
    destruct (PyFloat.ltb x (PyFloat.lit 5));
      destruct (PyFloat.ltb x (PyFloat.lit 7)); cbn [In]; tauto.
  - intros [|c r]; [cbn; tauto|]. rewrite classify_xray_cons.
    destruct (Ascii.eqb (PyStr.upper c) "A" || Ascii.eqb (PyStr.upper c) "B");
      destruct (Ascii.eqb (PyStr.upper c) "C");
      destruct (Ascii.eqb (PyStr.upper c) "M"); cbn [In]; tauto.
  - repeat constructor; cbn [In]; intuition discriminate.
  - repeat constructor; cbn [In]; intuition discriminate.
  - repeat constructor; cbn [In]; intuition discriminate.
  - repeat constructor; cbn [In]; intuition discriminate.
  - intros x H. rewrite classify_sfi_cases.
    change (PyFloat.lit 80) with (S754_finite false 5629499534213120 (-46)).
    rewrite (negative_ltb x _ _ H). reflexivity.
  - intros k H. rewrite classify_k_cases.
    destruct (Z.leb_spec k 1); [reflexivity | lia].
  - intros x H. rewrite classify_aurora_cases.
    change (PyFloat.lit 5) with (S754_finite false 5629499534213120 (-50)).
    rewrite (negative_ltb x _ _ H). reflexivity.
Qed.

Lemma classifiers_total_witness :
  below (PyFloat.lit (-3)) 0 /\ -3 < 0
  /\ classify_sfi (PyFloat.lit (-3)) = sfi_weak
  /\ classify_k (-3) = k_quiet
  /\ classify_aurora (PyFloat.lit (-3)) = aurora_unlikely.
Proof.
  split; [reflexivity|]. split; [reflexivity|].
  destruct classifiers_total as (_ & _ & _ & _ & _ & Hs & Hk & Ha).
  split; [apply Hs; reflexivity|].
  split; [apply Hk; reflexivity | apply Ha; reflexivity].
Defined.

(** ** Paths in the element tree *)

Lemma step_In t es c :
  In c (step t es) <-> exists e, In e es /\ In c (children e) /\ tag c = t.
Proof.
  unfold step. rewrite in_flat_map. split.
  - intros (e & He & Hc). apply filter_In in Hc. destruct Hc as [Hc Ht].
    exists e. repeat split; try assumption. apply String.eqb_eq, Ht.
  - intros (e & He & Hc & Ht). exists e. split; [exact He|].
    apply filter_In. split; [exact Hc | apply String.eqb_eq, Ht].
Qed.

Lemma select_In p : forall es d,
  In d (select p es) <-> exists e, In e es /\ at_path e p d.
Proof.
  induction p as [|t p IH]; intros es d; cbn [select].
  - split.
    + intros H. exists d. split; [exact H | constructor].
    + intros (e & He & Hp). inversion Hp; subst. exact He.
  - rewrite IH. split.
    + intros (c & Hc & Hp). apply step_In in Hc. destruct Hc as (e & He & Hc & Ht).
      exists e. split; [exact He|]. econstructor; eassumption.
    + intros (e & He & Hp). inversion Hp; subst.
      exists c. split; [|assumption]. apply step_In. exists e. auto.
Qed.

Lemma find_Some root p d : find root p = Some d -> at_path root p d.
Proof.
  unfold find. intros H.
  assert (Hin : In d (select p [root])).
  { destruct (select p [root]) as [|x l]; [discriminate|].
    cbn in H. injection H as ->. left. reflexivity. }
  apply select_In in Hin. destruct Hin as (e & [<- | []] & Hp). exact Hp.
Qed.

Lemma find_None root p : find root p = None <-> forall d, ~ at_path root p d.
Proof.
  unfold find. split.
  - intros H d Hp.
    assert (Hin : In d (select p [root])).
    { apply select_In. exists root. split; [left; reflexivity | exact Hp]. }
    destruct (select p [root]); [exact Hin | discriminate].
  - intros H. destruct (select p [root]) as [|x l] eqn:E; [reflexivity|].
    exfalso. apply (H x).
    assert (Hin : In x (select p [root])) by (rewrite E; left; reflexivity).
    apply select_In in Hin. destruct Hin as (e & [<- | []] & Hp). exact Hp.
Qed.

Lemma hd_error_filter {A} (f : A -> bool) l : hd_error (filter f l) = List.find f l.
Proof.
  induction l as [|x l IH]; [reflexivity|]. cbn. destruct (f x); [reflexivity | exact IH].
Qed.

(** [parent.find(tag)] is the first child with that tag. *)
Lemma find_child item t :
  find item [t] = List.find (fun c => String.eqb (tag c) t) (children item).
Proof.
  unfold find. cbn [select step flat_map]. rewrite app_nil_r. apply hd_error_filter.
Qed.

(** ** Extraction *)

Lemma bind_ok_inv {A B} (r : result A) (f : A -> result B) b :
  bind r f = ok b -> exists x, r = ok x /\ f x = ok b.
Proof. destruct r as [e | x]; [discriminate|]. intros H. exists x. split; [reflexivity | exact H]. Qed.

Lemma bind_raise_inv {A B} (r : result A) (f : A -> result B) e :
  bind r f = raise e -> r = raise e \/ exists x, r = ok x /\ f x = raise e.
Proof.
  destruct r as [e' | x]; cbn [bind].
  - intros H. left. injection H as ->. reflexivity.
  - intros H. right. exists x. split; [reflexivity | exact H].
Qed.

Lemma extract_ok_inv item r :
  extract item = ok r ->
  float_or_0 (safe_get item "solarflux" "0") = ok (sfi r)
  /\ sn r = safe_get item "sunspots" "?"
  /\ int_float_or_0 (safe_get item "aindex" "0") = ok (a r)
  /\ int_float_or_0 (safe_get item "kindex" "0") = ok (k r)
  /\ xray r = safe_get item "xray" ""
  /\ float_or_0 (safe_get item "aurora" "0") = ok (aurora r)
  /\ geomag r = safe_get item "geomagfield" "NoRpt"
  /\ sig_noise r = safe_get item "signalnoise" "?".
Proof.
  unfold extract. intros H.
  apply bind_ok_inv in H. destruct H as (x1 & E1 & H).
  apply bind_ok_inv in H. destruct H as (x2 & E2 & H).
  apply bind_ok_inv in H. destruct H as (x3 & E3 & H).
  apply bind_ok_inv in H. destruct H as (x4 & E4 & H).
  injection H as <-. cbn. repeat split; assumption.
Qed.

Lemma of_str_raise s e : PyFloat.of_str s = raise e -> e = ValueError.
Proof.
  unfold PyFloat.of_str.
  destruct (PyFloat.drop_underscores zero (PyFloat.strip_arg s)) as [t|]; [|intros H; injection H as <-; reflexivity].
  destruct (PyFloat.parse_signed t); [discriminate | intros H; injection H as <-; reflexivity].
Qed.

Lemma float_or_0_raise s e : float_or_0 s = raise e -> e = ValueError.
Proof.
  unfold float_or_0. destruct (PyStr.truthy s); [apply of_str_raise | discriminate].
Qed.

Lemma to_int_raise x e : PyFloat.to_int x = raise e -> e = ValueError \/ e = OverflowError.
Proof.
  destruct x; cbn; intros H; try discriminate; injection H as <-; auto.
Qed.

Lemma int_float_or_0_raise s e :
  int_float_or_0 s = raise e -> e = ValueError \/ e = OverflowError.
Proof.
  unfold int_float_or_0. intros H. apply bind_raise_inv in H.
  destruct H as [H | (x & _ & H)].
  - left. eapply float_or_0_raise, H.
  - eapply to_int_raise, H.
Qed.

Lemma extract_raise_kind item e :
  extract item = raise e -> e = ValueError \/ e = OverflowError.
Proof.
  unfold extract. intros H.
  apply bind_raise_inv in H. destruct H as [H | (x1 & _ & H)];
    [left; eapply float_or_0_raise, H|].
  apply bind_raise_inv in H. destruct H as [H | (x2 & _ & H)];
    [eapply int_float_or_0_raise, H|].
  apply bind_raise_inv in H. destruct H as [H | (x3 & _ & H)];
    [eapply int_float_or_0_raise, H|].
  apply bind_raise_inv in H. destruct H as [H | (x4 & _ & H)];
    [left; eapply float_or_0_raise, H|].
  discriminate H.
Qed.

Lemma float_or_0_nonempty s : s <> "" -> float_or_0 s = PyFloat.of_str s.
Proof. destruct s; [congruence | reflexivity]. Qed.

Lemma safe_get_absent item t default :
  field_absent item t -> safe_get item t default = default.
Proof.
  unfold safe_get. intros [H | (el & H & Ht)]; rewrite H; [reflexivity|].
  rewrite Ht. reflexivity.
Qed.

Lemma safe_get_text item t default el s :
  find item [t] = Some el -> text el = Some s ->
  safe_get item t default = PyStr.strip s.
Proof. unfold safe_get. intros -> ->. reflexivity. Qed.

Lemma field_reads_zero item t :
  field_absent item t \/ field_blank item t ->
  float_or_0 (safe_get item t "0") = ok (S754_zero false)
  /\ int_float_or_0 (safe_get item t "0") = ok 0.
Proof.
  intros [H | (el & s & Hf & Ht & Hs)].
  - rewrite (safe_get_absent _ _ _ H). split; reflexivity.
  - rewrite (safe_get_text _ _ _ _ _ Hf Ht), Hs. split; reflexivity.
Qed.

(** ** Conversions and displays of numbers *)

Lemma to_int_trunc x : finite x -> PyFloat.to_int x = ok (trunc (number x)).
Proof.
  unfold finite. intros Hf.
  destruct x as [s | s | | s m e]; cbn [value number PyFloat.to_int] in *;
    [reflexivity | destruct s; discriminate Hf | discriminate Hf |].
  clear Hf. f_equal. unfold trunc, finite_value.
  destruct e as [| p | p]; cbn [Qnum Qden inject_Z].
  - rewrite Z.quot_1_r. cbn [Z.shiftl]. change (2 ^ 0) with 1. rewrite Z.mul_1_r. reflexivity.
  - rewrite Z.quot_1_r, Z.shiftl_mul_pow2 by lia.
    destruct s; cbn [cond_Zopp]; lia.
  - change (Z.shiftl (Zpos m) (Zneg p)) with (Z.shiftr (Zpos m) (Zpos p)).
    rewrite Z.shiftr_div_pow2 by lia. rewrite Pos2Z.inj_pow.
    assert (0 < 2 ^ Zpos p) by (apply Z.pow_pos_nonneg; lia).
    destruct s; cbn [cond_Zopp].
    + change (Zneg m) with (- Zpos m). rewrite Z.quot_opp_l by lia.
      rewrite Z.quot_div_nonneg by lia. reflexivity.
    + rewrite Z.quot_div_nonneg by lia. reflexivity.
Qed.

Lemma round_half_even_near n d :
  0 < d -> - d <= 2 * (n - PyFloat.round_half_even n d * d) <= d.
Proof.
  intros Hd. unfold PyFloat.round_half_even.
  pose proof (Z.div_mod n d ltac:(lia)) as E.
  pose proof (Z.mod_pos_bound n d Hd) as B.
  destruct (Z.compare_spec (2 * (n mod d)) d); [destruct (Z.even (n / d))| |]; nia.
Qed.

Lemma round_half_even_nonneg n d : 0 <= n -> 0 < d -> 0 <= PyFloat.round_half_even n d.
Proof.
  intros Hn Hd. unfold PyFloat.round_half_even.
  pose proof (Z.div_pos n d Hn Hd).
  destruct (2 * (n mod d) ?= d); [destruct (Z.even (n / d))| |]; lia.
Qed.

Lemma tenths_nonneg m e : 0 <= PyFloat.tenths m e.
Proof.
  unfold PyFloat.tenths. destruct e as [| p | p].
  - lia.
  - assert (0 < 2 ^ Zpos p) by (apply Z.pow_pos_nonneg; lia). nia.
  - apply round_half_even_nonneg; lia.
Qed.

Lemma tenths_near m e :
  (inject_Z (PyFloat.tenths m e) - (1 # 2) <= 10 * finite_value false m e
   /\ 10 * finite_value false m e <= inject_Z (PyFloat.tenths m e) + (1 # 2))%Q.
Proof.
  unfold PyFloat.tenths, finite_value. cbn [cond_Zopp].
  destruct e as [| p | p].
  - unfold Qle; cbn; lia.
  - unfold Qle. cbn [Qnum Qden inject_Z Qmult Qplus Qminus Qopp]. 
    assert (0 < 2 ^ Zpos p) by (apply Z.pow_pos_nonneg; lia). lia.
  - pose proof (round_half_even_near (10 * Zpos m) (Zpos (2 ^ p)) ltac:(lia)) as B.
    set (t := PyFloat.round_half_even (10 * Zpos m) (Zpos (2 ^ p))) in *.
    unfold Qle. cbn [Qnum Qden inject_Z Qmult Qplus Qminus Qopp].
    rewrite ?Pos2Z.inj_mul. lia.
Qed.

Lemma of_int_digit d : 0 <= d <= 9 -> PyStr.of_int d = digit_str d.
Proof.
  intros H.
  assert (C : d = 0 \/ d = 1 \/ d = 2 \/ d = 3 \/ d = 4 \/ d = 5 \/ d = 6
              \/ d = 7 \/ d = 8 \/ d = 9) by lia.
  repeat (destruct C as [-> | C]; [reflexivity|]). subst. reflexivity.
Qed.

Lemma string_of_uint_digits u : all_digits (NilEmpty.string_of_uint u) = true.
Proof. induction u; cbn; try reflexivity; exact IHu. Qed.

Lemma of_int_all_digits n : 0 <= n -> all_digits (PyStr.of_int n) = true.
Proof.
  intros H. unfold PyStr.of_int. destruct n as [| p | p]; [reflexivity | | lia].
  cbn [Z.to_int NilZero.string_of_int]. unfold NilZero.string_of_uint.
  destruct (Pos.to_uint p); try reflexivity; apply string_of_uint_digits.
Qed.

(** ** The record node *)

(** C9: the record node is the first element at channel/item/solardata
    when there is one; only when there is none is it the first element at
    channel/item; when there is none at either path the run ends with
    [SystemExit] and its message, a non-zero exit status and no saved
    image. *)
Theorem locate_order (w : world) (root : Element) (Hr : response w = ok root) :
  (forall d0, at_path root ["channel"; "item"; "solardata"] d0 ->
     exists d, find root ["channel"; "item"; "solardata"] = Some d
               /\ at_path root ["channel"; "item"; "solardata"] d
               /\ locate root = ok d)
  /\ ((forall d, ~ at_path root ["channel"; "item"; "solardata"] d) ->
      forall d0, at_path root ["channel"; "item"] d0 ->
        exists d, find root ["channel"; "item"] = Some d
                  /\ at_path root ["channel"; "item"] d
                  /\ locate root = ok d)
  /\ ((forall d, ~ at_path root ["channel"; "item"; "solardata"] d) ->
      (forall d, ~ at_path root ["channel"; "item"] d) ->
      main w = raise (SystemExit "Konnte solardata-Element nicht finden")
      /\ exit_message (main w) = Some "Konnte solardata-Element nicht finden"
      /\ exit_status (main w) <> 0
      /\ saved_file (main w) = None).
Proof.
  split; [|split].
  - intros d0 H0.
    destruct (find root ["channel"; "item"; "solardata"]) as [d|] eqn:E.
    + exists d. split; [reflexivity|]. split; [apply find_Some, E|].
      unfold locate. rewrite E. reflexivity.
    + exfalso. exact (proj1 (find_None _ _) E d0 H0).
  - intros N1 d0 H0. apply find_None in N1.
    destruct (find root ["channel"; "item"]) as [d|] eqn:E.
    + exists d. split; [reflexivity|]. split; [apply find_Some, E|].
      unfold locate. rewrite N1, E. reflexivity.
    + exfalso. exact (proj1 (find_None _ _) E d0 H0).
  - intros N1 N2. apply find_None in N1, N2.
    assert (E : main w = raise (SystemExit "Konnte solardata-Element nicht finden")).
    { unfold main, locate. rewrite Hr. cbn [bind ok]. rewrite N1, N2. reflexivity. }
    rewrite E. repeat split. discriminate.
Qed.

Lemma locate_order_witness :
  response (world_of feed_no_channel) = ok feed_no_channel
  /\ main (world_of feed_no_channel)
     = raise (SystemExit "Konnte solardata-Element nicht finden").
Proof.
  split; [reflexivity|].
  apply (locate_order (world_of feed_no_channel) feed_no_channel eq_refl);
    apply find_None; reflexivity.
Defined.

(** ** Text that is not a number *)





(** ** The display lines *)

Lemma append_empty_r (s : string) : (s ++ "")%string = s.
Proof. induction s as [|c s IH]; [reflexivity|]. cbn. rewrite IH. reflexivity. Qed.

Lemma xray_or_na_cases s :
  (s = "" -> xray_or_na s = "n/a") /\ (s <> "" -> xray_or_na s = s).
Proof. destruct s; split; intros H; try reflexivity; congruence. Qed.

(** The display of a finite float with one decimal. *)
Lemma format_1f_finite x :
  finite x ->
  exists t,
    PyFloat.format_1f x
    = (PyFloat.sign_str (sign_of x) ++ PyStr.of_int (t / 10) ++ "."
       ++ digit_str (t mod 10))%string
    /\ all_digits (PyStr.of_int (t / 10)) = true
    /\ 0 <= t mod 10 <= 9
    /\ (inject_Z t - (1 # 2) <= 10 * Qabs (number x)
        /\ 10 * Qabs (number x) <= inject_Z t + (1 # 2))%Q.
Proof.
  unfold finite. intros Hf.
  destruct x as [s | s | | s m e]; cbn [value number sign_of PyFloat.format_1f] in *;
    [ | destruct s; discriminate Hf | discriminate Hf | ].
  - exists 0. split; [reflexivity|]. split; [reflexivity|].
    split; [split; discriminate|].
    split; discriminate.
  - exists (PyFloat.tenths m e).
    pose proof (tenths_nonneg m e) as Ht.
    pose proof (Z.mod_pos_bound (PyFloat.tenths m e) 10 ltac:(lia)) as Hm.
    split; [rewrite (of_int_digit (PyFloat.tenths m e mod 10)) by lia; reflexivity|].
    split; [apply of_int_all_digits, Z.div_pos; lia|].
    split; [lia|].
    assert (E : (Qabs (finite_value s m e) == finite_value false m e)%Q).
    { unfold finite_value, Qeq, Qabs, inject_Z.
      destruct e as [| p | p], s; cbn [cond_Zopp Qnum Qden]; lia. }
    rewrite E. apply tenths_near.
Qed.

(** C7, as the code has it: for a report whose solar flux index is finite,
    and every timestamp, the formatter gives six German and six English
    lines in the order header, SFI and sunspots, A and K, aurora, X-ray,
    geomagnetic field and noise; the solar flux index appears truncated
    toward zero; the X-ray line shows n/a for an empty class; A and K are
    the truncations of the floats read (3.8 gives 3); a finite aurora index
    appears with one decimal, correctly rounded. *)
Theorem format_lines_spec (r : SolarReport) (now : string) (Hfin : finite (sfi r)) :
  let n := trunc (number (sfi r)) in
  let de :=
    [ "DL2HT Solarbericht - " ++ now;
      "SFI " ++ PyStr.of_int n ++ " / SN " ++ sn r ++ " - " ++ fst (classify_sfi (sfi r));
      "A=" ++ PyStr.of_int (a r) ++ ", K=" ++ PyStr.of_int (k r) ++ " - "
        ++ fst (classify_k (k r));
      "Aurora-Index " ++ PyFloat.format_1f (aurora r) ++ " - "
        ++ fst (classify_aurora (aurora r));
      "X-Ray " ++ xray_or_na (xray r) ++ " - " ++ fst (classify_xray (xray r));
      "Geomag: " ++ geomag r ++ ", Rauschpegel: " ++ sig_noise r ]%string in
  let en :=
    [ "DL2HT Solar Report - " ++ now;
      "SFI " ++ PyStr.of_int n ++ " / SSN " ++ sn r ++ " - " ++ snd (classify_sfi (sfi r));
      "A=" ++ PyStr.of_int (a r) ++ ", K=" ++ PyStr.of_int (k r) ++ " - "
        ++ snd (classify_k (k r));
      "Aurora index " ++ PyFloat.format_1f (aurora r) ++ " - "
        ++ snd (classify_aurora (aurora r));
      "X-ray " ++ xray_or_na (xray r) ++ " - " ++ snd (classify_xray (xray r));
      "Geomag: " ++ geomag r ++ ", Noise level: " ++ sig_noise r ]%string in
  format_lines r now = ok (de, en)
  /\ List.length de = 6%nat /\ List.length en = 6%nat
  /\ ((xray r = "" -> xray_or_na (xray r) = "n/a")
      /\ (xray r <> "" -> xray_or_na (xray r) = xray r))
  /\ (forall s x, float_or_0 s = ok x -> finite x ->
        int_float_or_0 s = ok (trunc (number x)))
  /\ int_float_or_0 "3.8" = ok 3
  /\ (finite (aurora r) ->
      exists t,
        PyFloat.format_1f (aurora r)
        = (PyFloat.sign_str (sign_of (aurora r)) ++ PyStr.of_int (t / 10) ++ "."
           ++ digit_str (t mod 10))%string
        /\ all_digits (PyStr.of_int (t / 10)) = true
        /\ 0 <= t mod 10 <= 9
        /\ (inject_Z t - (1 # 2) <= 10 * Qabs (number (aurora r))
            /\ 10 * Qabs (number (aurora r)) <= inject_Z t + (1 # 2))%Q).
Proof.
  intros n de en.
  split.
  { unfold format_lines.
    destruct (classify_sfi (sfi r)) as [sfi_de sfi_en].
    destruct (classify_k (k r)) as [k_de k_en].
    destruct (classify_aurora (aurora r)) as [aur_de aur_en].
    destruct (classify_xray (xray r)) as [xr_de xr_en].
    rewrite (to_int_trunc _ Hfin). cbn [bind ok fst snd].
    unfold PyStr.concat. cbn [fold_right]. rewrite !append_empty_r.
    reflexivity. }
  split; [reflexivity|]. split; [reflexivity|].
  split; [apply xray_or_na_cases|].
  split.
  { intros s x Hs Hx. unfold int_float_or_0. rewrite Hs. cbn [bind ok].
    apply to_int_trunc, Hx. }
  split; [vm_compute; reflexivity|].
  apply format_1f_finite.
Qed.

Lemma format_lines_spec_witness :
  finite (PyFloat.lit 150)
  /\ exists de en,
       format_lines
         {| sfi := PyFloat.lit 150; sn := "120"; a := 2; k := 3; xray := "";
            aurora := PyFloat.lit 6; geomag := "Active"; sig_noise := "S1" |}
         "now" = ok (de, en)
       /\ List.length de = 6%nat /\ List.length en = 6%nat.
Proof.
  split; [reflexivity|].
  pose proof (format_lines_spec
    {| sfi := PyFloat.lit 150; sn := "120"; a := 2; k := 3; xray := "";
       aurora := PyFloat.lit 6; geomag := "Active"; sig_noise := "S1" |}
    "now" eq_refl) as H.
  cbv zeta in H. destruct H as (E & L1 & L2 & _).
  eexists. eexists. split; [exact E|]. split; [exact L1 | exact L2].
Defined.

(** The report with an infinite solar flux index is the one read from the
    record whose solarflux text is inf, and the run on that feed ends with
    [OverflowError]. *)
Lemma sfi_inf_from_feed :
  extract record_sfi_inf = ok report_sfi_inf
  /\ main (world_of (feed_of record_sfi_inf)) = raise OverflowError.
Proof. split; vm_compute; reflexivity. Qed.

(** C7 as written fails for a report whose solar flux index is infinite:
    [int(sfi)] raises and no line is produced. *)
Lemma format_lines_inf_counterexample :
  ~ (exists de en,
       format_lines report_sfi_inf "03 Nov 2026, 10:31 UTC" = ok (de, en)
       /\ List.length de = 6%nat /\ List.length en = 6%nat).
Proof. intros (de & en & H & _). discriminate H. Qed.

(** ** The synthetic feed *)

(** C8: for the synthetic record, nested under solardata or directly under
    item, the second German line is
    [SFI 150 / SN 120 - sehr gute 20-10m Bedingungen] and the fourth English
    line is [Aurora index 6.2 - possible auroral activity], whatever the
    timestamp; the drawn image carries both. *)
Theorem synthetic_feed_lines (now : string) :
  (forall root, root = feed_of synthetic_record \/ root = synthetic_flat ->
     exists de en,
       (item <- locate root ;; r <- extract item ;; format_lines r now) = ok (de, en)
       /\ nth_error de 1 = Some "SFI 150 / SN 120 - sehr gute 20-10m Bedingungen"
       /\ nth_error en 3 = Some "Aurora index 6.2 - possible auroral activity")
  /\ (exists img,
        main (world_of (feed_of synthetic_record)) = ok img
        /\ In (DrawText 10 52 "SFI 150 / SN 120 - sehr gute 20-10m Bedingungen"
                        (Truetype "arial.ttf" 14)) img
        /\ In (DrawText 10 208 "Aurora index 6.2 - possible auroral activity"
                        (Truetype "arial.ttf" 14)) img).
Proof.
  split.
  - intros root [-> | ->]; eexists; eexists; (split; [cbv; reflexivity|]);
      split; reflexivity.
  - eexists. split; [vm_compute; reflexivity|]. cbn [In]. split.
    + right. right. left. reflexivity.
    + do 11 right. left. reflexivity.
Qed.

Lemma synthetic_feed_lines_witness :
  exists de en,
    (item <- locate (feed_of synthetic_record) ;; r <- extract item ;;
     format_lines r "03 Nov 2026, 10:31 UTC") = ok (de, en)
    /\ nth_error de 1 = Some "SFI 150 / SN 120 - sehr gute 20-10m Bedingungen"
    /\ nth_error en 3 = Some "Aurora index 6.2 - possible auroral activity".
Proof.
  apply (synthetic_feed_lines "03 Nov 2026, 10:31 UTC"). left. reflexivity.
Defined.

(** * Further facts about the script *)

(** ** The drawing loop *)

Lemma draw_lines_snd f lines : forall y,
  snd (draw_lines f y lines) = y + 18 * Z.of_nat (List.length lines).
Proof.
  induction lines as [|l rest IH]; intros y; cbn [draw_lines List.length].
  - cbn [snd]. lia.
  - specialize (IH (y + 18)). destruct (draw_lines f (y + 18) rest) as [ops y'].
    cbn [snd] in *. lia.
Qed.

Lemma draw_lines_length f lines : forall y,
  List.length (fst (draw_lines f y lines)) = List.length lines.
Proof.
  induction lines as [|l rest IH]; intros y; cbn [draw_lines List.length]; [reflexivity|].
  specialize (IH (y + 18)). destruct (draw_lines f (y + 18) rest) as [ops y'].
  cbn [fst List.length] in *. rewrite IH. reflexivity.
Qed.

Lemma draw_lines_nth f lines : forall y i,
  nth_error (fst (draw_lines f y lines)) i
  = option_map (fun l => DrawText 10 (y + 18 * Z.of_nat i) l f) (nth_error lines i).
Proof.
  induction lines as [|l rest IH]; intros y i; cbn [draw_lines].
  - destruct i; reflexivity.
  - specialize (IH (y + 18)). destruct (draw_lines f (y + 18) rest) as [ops y'].
    cbn [fst] in *. destruct i as [|i]; cbn [nth_error option_map].
    + do 2 f_equal. lia.
    + rewrite IH. destruct (nth_error rest i); cbn [option_map]; [|reflexivity].
      do 2 f_equal. lia.
Qed.

Lemma draw_lines_texts f lines : forall y, texts (fst (draw_lines f y lines)) = lines.
Proof.
  induction lines as [|l rest IH]; intros y; cbn [draw_lines]; [reflexivity|].
  specialize (IH (y + 18)). destruct (draw_lines f (y + 18) rest) as [ops y'].
  cbn [fst texts] in *. rewrite IH. reflexivity.
Qed.

(** X1: the loop [for line in lines: draw.text((10, y), line); y += 18]
    draws the line of index [i] at [(10, y + 18 i)] in the given font, draws
    nothing else, and leaves [y] advanced by 18 per line. *)
Theorem draw_lines_layout (f : font) (y : Z) (lines : list string) :
  List.length (fst (draw_lines f y lines)) = List.length lines
  /\ snd (draw_lines f y lines) = y + 18 * Z.of_nat (List.length lines)
  /\ (forall i, nth_error (fst (draw_lines f y lines)) i
                = option_map (fun l => DrawText 10 (y + 18 * Z.of_nat i) l f)
                             (nth_error lines i))
  /\ texts (fst (draw_lines f y lines)) = lines.
Proof.
  split; [apply draw_lines_length|]. split; [apply draw_lines_snd|].
  split; [apply draw_lines_nth | apply draw_lines_texts].
Qed.

(** ** The image *)

Lemma render_eq w lines_de lines_en :
  render w lines_de lines_en
  = ([DrawText 10 8 title_text (title_font w)]
     ++ fst (draw_lines (body_font w) 34 lines_de)
     ++ [DrawLine 10 (38 + 18 * Z.of_nat (List.length lines_de)) 630
                  (38 + 18 * Z.of_nat (List.length lines_de))]
     ++ fst (draw_lines (body_font w)
                        (46 + 18 * Z.of_nat (List.length lines_de)) lines_en)
     ++ [DrawText (640 - fst (textsize w (body_font w) footer_text) - 10)
                  (300 - snd (textsize w (body_font w) footer_text) - 4)
                  footer_text (body_font w)])%list.
Proof.
  unfold render, title_font, body_font, title_text, footer_text.
  destruct (truetype_ok w).
  - pose proof (draw_lines_snd (Truetype "arial.ttf" 14) lines_de (8 + 26)) as E.
    destruct (draw_lines (Truetype "arial.ttf" 14) (8 + 26) lines_de) as [de_ops y] eqn:D.
    cbn [snd] in E. subst y. change (8 + 26) with 34 in *.
    replace (34 + 18 * Z.of_nat (List.length lines_de) + 4 + 8)
      with (46 + 18 * Z.of_nat (List.length lines_de)) by lia.
    replace (34 + 18 * Z.of_nat (List.length lines_de) + 4)
      with (38 + 18 * Z.of_nat (List.length lines_de)) by lia.
    destruct (draw_lines (Truetype "arial.ttf" 14)
                (46 + 18 * Z.of_nat (List.length lines_de)) lines_en) as [en_ops y'].
    destruct (textsize w (Truetype "arial.ttf" 14)
                "Data source: hamqsl.com / N0NBH") as [fw fh].
    rewrite D. reflexivity.
  - pose proof (draw_lines_snd DefaultFont lines_de (8 + 26)) as E.
    destruct (draw_lines DefaultFont (8 + 26) lines_de) as [de_ops y] eqn:D.
    cbn [snd] in E. subst y. change (8 + 26) with 34 in *.
    replace (34 + 18 * Z.of_nat (List.length lines_de) + 4 + 8)
      with (46 + 18 * Z.of_nat (List.length lines_de)) by lia.
    replace (34 + 18 * Z.of_nat (List.length lines_de) + 4)
      with (38 + 18 * Z.of_nat (List.length lines_de)) by lia.
    destruct (draw_lines DefaultFont
                (46 + 18 * Z.of_nat (List.length lines_de)) lines_en) as [en_ops y'].
    destruct (textsize w DefaultFont "Data source: hamqsl.com / N0NBH") as [fw fh].
    rewrite D. reflexivity.
Qed.
Lemma texts_app (xs ys : image) :
  texts (xs ++ ys)%list = (texts xs ++ texts ys)%list.
Proof.
  induction xs as [|o xs IH]; [reflexivity|].
  destruct o; cbn [texts app]; rewrite IH; reflexivity.
Qed.

Lemma nth_error_cons_S {A} (x : A) l i : nth_error (x :: l) (S i) = nth_error l i.
Proof. reflexivity. Qed.

(** X2: the image holds, in this order, the title at (10, 8), the German
    lines from y = 34 in steps of 18, one horizontal rule from x = 10 to
    x = 630 placed 4 below the German block, and the English lines starting
    8 below the rule in steps of 18, then the footer: three operations more
    than there are lines, and the texts drawn are the title, the German
    lines, the English lines and the footer. *)
Theorem render_layout (w : world) (lines_de lines_en : list string) :
  let n := List.length lines_de in
  let img := render w lines_de lines_en in
  List.length img = (3 + n + List.length lines_en)%nat
  /\ nth_error img 0 = Some (DrawText 10 8 title_text (title_font w))
  /\ (forall i l, nth_error lines_de i = Some l ->
        nth_error img (1 + i)
        = Some (DrawText 10 (34 + 18 * Z.of_nat i) l (body_font w)))
  /\ nth_error img (1 + n)
     = Some (DrawLine 10 (38 + 18 * Z.of_nat n) 630 (38 + 18 * Z.of_nat n))
  /\ (forall j l, nth_error lines_en j = Some l ->
        nth_error img (2 + n + j)
        = Some (DrawText 10 (46 + 18 * Z.of_nat n + 18 * Z.of_nat j) l
                         (body_font w)))
  /\ texts img = (title_text :: lines_de ++ lines_en ++ [footer_text])%list.
Proof.
  intros n img. subst img. rewrite render_eq. fold n.
  pose proof (draw_lines_length (body_font w) lines_de 34) as Lde.
  pose proof (draw_lines_length (body_font w) lines_en (46 + 18 * Z.of_nat n)) as Len.
  split.
  { cbn [app List.length]. rewrite !length_app, Lde. cbn [List.length].
    rewrite length_app, Len. cbn [List.length]. fold n. lia. }
  split; [reflexivity|].
  split.
  { intros i l Hi. cbn [app Nat.add]. rewrite nth_error_cons_S.
    assert (Hlt : (i < n)%nat) by (apply nth_error_Some; congruence).
    rewrite nth_error_app1 by (rewrite Lde; exact Hlt).
    rewrite draw_lines_nth, Hi. reflexivity. }
  split.
  { cbn [app Nat.add]. rewrite nth_error_cons_S.
    rewrite nth_error_app2 by (rewrite Lde; fold n; lia).
    rewrite Lde. fold n. rewrite Nat.sub_diag. reflexivity. }
  split.
  { intros j l Hj. cbn [app]. change (2 + n + j)%nat with (S (S (n + j))).
    rewrite nth_error_cons_S.
    rewrite nth_error_app2 by (rewrite Lde; fold n; lia).
    rewrite Lde. fold n. replace (S (n + j) - n)%nat with (S j) by lia.
    rewrite nth_error_cons_S.
    assert (Hlt : (j < List.length lines_en)%nat) by (apply nth_error_Some; congruence).
    rewrite nth_error_app1 by (rewrite Len; exact Hlt).
    rewrite draw_lines_nth, Hj. reflexivity. }
  cbn [app texts]. rewrite texts_app. cbn [app texts]. rewrite texts_app.
  rewrite !draw_lines_texts. reflexivity.
Qed.

(** X3: the footer is the last operation; its box of the size that
    [textsize] reports ends 10 short of the right edge and 4 short of the
    bottom edge of the 640 x 300 canvas. *)
Theorem render_footer (w : world) (lines_de lines_en : list string) :
  exists x y,
    last (render w lines_de lines_en) (DrawLine 0 0 0 0)
    = DrawText x y footer_text (body_font w)
    /\ x + fst (textsize w (body_font w) footer_text) = 640 - 10
    /\ y + snd (textsize w (body_font w) footer_text) = 300 - 4.
Proof.
  eexists. eexists. split.
  - rewrite render_eq. rewrite !app_assoc. apply last_last.
  - split; lia.
Qed.

Lemma draw_lines_font f lines : forall y o,
  In o (fst (draw_lines f y lines)) -> op_font o = Some f.
Proof.
  induction lines as [|l rest IH]; intros y o; cbn [draw_lines]; [intros []|].
  specialize (IH (y + 18)). destruct (draw_lines f (y + 18) rest) as [ops y'].
  cbn [fst In] in *. intros [<- | H]; [reflexivity | exact (IH o H)].
Qed.

(** X4: every text of the image is drawn in the title font or in the body
    font; when arial.ttf cannot be loaded both are the built-in font, so no
    text is drawn in a scalable font, and when it can they are arial at
    sizes 18 and 14. *)
Theorem render_fonts (w : world) (lines_de lines_en : list string)
    (o : draw_op) (f : font)
    (Ho : In o (render w lines_de lines_en)) (Hf : op_font o = Some f) :
  (f = title_font w \/ f = body_font w)
  /\ (truetype_ok w = false -> f = DefaultFont)
  /\ (truetype_ok w = true ->
      f = Truetype "arial.ttf" 18 \/ f = Truetype "arial.ttf" 14).
Proof.
  assert (H : f = title_font w \/ f = body_font w).
  { rewrite render_eq in Ho.
    repeat (apply in_app_or in Ho; destruct Ho as [Ho | Ho]).
    - destruct Ho as [<- | []]. cbn in Hf. left. congruence.
    - apply draw_lines_font in Ho. right. congruence.
    - destruct Ho as [<- | []]. discriminate Hf.
    - apply draw_lines_font in Ho. right. congruence.
    - destruct Ho as [<- | []]. cbn in Hf. right. congruence. }
  split; [exact H|].
  unfold title_font, body_font in H.
  split; intros E; rewrite E in H; tauto.
Qed.

Lemma render_fonts_witness :
  In (DrawText 10 8 title_text DefaultFont)
     (render {| response := raise ParseError; now_utc := ""; truetype_ok := false;
                textsize := fun _ _ => (0, 0); lib_raises := fun _ => None |} [] [])
  /\ (false = false -> DefaultFont = DefaultFont).
Proof.
  split; [left; reflexivity|].
  apply (render_fonts
           {| response := raise ParseError; now_utc := ""; truetype_ok := false;
              textsize := fun _ _ => (0, 0); lib_raises := fun _ => None |} [] []
           (DrawText 10 8 title_text DefaultFont) DefaultFont);
    [left; reflexivity | reflexivity].
Defined.

(** ** The lines and the run as a whole *)

Lemma format_lines_cases r now :
  match PyFloat.to_int (sfi r) with
  | inl e => format_lines r now = raise e
  | inr _ =>
      exists d1 d2 d3 d4 d5 e1 e2 e3 e4 e5,
        format_lines r now
        = ok ([("DL2HT Solarbericht - " ++ now)%string; d1; d2; d3; d4; d5],
              [("DL2HT Solar Report - " ++ now)%string; e1; e2; e3; e4; e5])
  end.
Proof.
  unfold format_lines.
  destruct (classify_sfi (sfi r)) as [sfi_de sfi_en].
  destruct (classify_k (k r)) as [k_de k_en].
  destruct (classify_aurora (aurora r)) as [aur_de aur_en].
  destruct (classify_xray (xray r)) as [xr_de xr_en].
  destruct (PyFloat.to_int (sfi r)) as [e | n]; cbn [bind]; [reflexivity|].
  unfold PyStr.concat. cbn [fold_right]. rewrite !append_empty_r.
  do 10 eexists. reflexivity.
Qed.

(** X5: the formatter fails exactly on a solar flux index that is not a
    number: with [ValueError] for a NaN and with [OverflowError] for an
    infinity, whatever the timestamp and the other fields; on every other
    report it returns its two lists. *)
Theorem format_lines_raises (r : SolarReport) (now : string) (e : exn) :
  format_lines r now = raise e
  <-> (sfi r = PyFloat.nan /\ e = ValueError)
      \/ (exists s, sfi r = PyFloat.inf s /\ e = OverflowError).
Proof.
  pose proof (format_lines_cases r now) as H.
  destruct (sfi r) as [s | s | | s m x] eqn:E; cbn [PyFloat.to_int] in H.
  - destruct H as (d1 & d2 & d3 & d4 & d5 & e1 & e2 & e3 & e4 & e5 & H).
    rewrite H. split; [discriminate|].
    intros [[F _] | (s' & F & _)]; discriminate F.
  - rewrite H. split.
    + intros F. injection F as <-. right. exists s. split; reflexivity.
    + intros [[F _] | (s' & _ & ->)]; [discriminate F | reflexivity].
  - rewrite H. split.
    + intros F. injection F as <-. left. split; reflexivity.
    + intros [[_ ->] | (s' & F & _)]; [reflexivity | discriminate F].
  - destruct H as (d1 & d2 & d3 & d4 & d5 & e1 & e2 & e3 & e4 & e5 & H).
    rewrite H. split; [discriminate|].
    intros [[F _] | (s' & F & _)]; discriminate F.
Qed.

Lemma first_error_None raises calls :
  first_error raises calls = None <-> forall c, In c calls -> raises c = None.
Proof.
  induction calls as [|c rest IH]; cbn [first_error In].
  - split; [intros _ c [] | reflexivity].
  - destruct (raises c) as [e|] eqn:E.
    + split; [discriminate|]. intros H. rewrite <- E. apply H. left. reflexivity.
    + rewrite IH. split.
      * intros H c' [<- | Hc']; [exact E | exact (H c' Hc')].
      * intros H c' Hc'. apply H. right. exact Hc'.
Qed.

Lemma first_error_Some raises calls e :
  first_error raises calls = Some e <->
  exists before c after,
    calls = (before ++ c :: after)%list
    /\ (forall c', In c' before -> raises c' = None)
    /\ raises c = Some e.
Proof.
  induction calls as [|c rest IH]; cbn [first_error].
  - split; [discriminate|]. intros (b & c & a & H & _). destruct b; discriminate H.
  - destruct (raises c) as [e'|] eqn:E.
    + split.
      * intros H. injection H as <-. exists [], c, rest.
        split; [reflexivity|]. split; [intros c' []|exact E].
      * intros (b & c0 & a & H & Hb & Hc). destruct b as [|c1 b].
        -- cbn [app] in H. injection H as <- <-. congruence.
        -- cbn [app] in H. injection H as <- _.
           rewrite (Hb c (or_introl eq_refl)) in E. discriminate E.
    + rewrite IH. split.
      * intros (b & c0 & a & -> & Hb & Hc). exists (c :: b), c0, a.
        split; [reflexivity|]. split; [|exact Hc].
        intros c' [<- | Hc']; [exact E | exact (Hb c' Hc')].
      * intros (b & c0 & a & H & Hb & Hc). destruct b as [|c1 b].
        -- cbn [app] in H. injection H as <- <-. congruence.
        -- cbn [app] in H. injection H as <- ->. exists b, c0, a.
           split; [reflexivity|]. split; [|exact Hc].
           intros c' Hc'. apply Hb. right. exact Hc'.
Qed.

(** [main] is [display_lines] followed by the calls into Pillow. *)
Lemma main_display w :
  main w
  = match display_lines w with
    | inl e => raise e
    | inr lines =>
        match first_error (lib_raises w)
                          (library_calls w (fst lines) (snd lines)) with
        | Some e => raise e
        | None => ok (render w (fst lines) (snd lines))
        end
    end.
Proof.
  unfold main, display_lines.
  destruct (response w) as [e | root]; [reflexivity|]. cbn [bind].
  destruct (locate root) as [e | item]; [reflexivity|]. cbn [bind].
  destruct (extract item) as [e | r]; [reflexivity|]. cbn [bind].
  destruct (format_lines r (now_utc w)) as [e | lines]; reflexivity.
Qed.

Lemma display_lines_ok_inv w lines :
  display_lines w = ok lines ->
  exists root item r,
    response w = ok root /\ locate root = ok item /\ extract item = ok r
    /\ format_lines r (now_utc w) = ok lines.
Proof.
  unfold display_lines. intros H.
  apply bind_ok_inv in H. destruct H as (root & E1 & H).
  apply bind_ok_inv in H. destruct H as (item & E2 & H).
  apply bind_ok_inv in H. destruct H as (r & E3 & H).
  exists root, item, r. repeat split; assumption.
Qed.

Lemma main_ok_inv w img :
  main w = ok img ->
  exists root item r lines_de lines_en,
    response w = ok root /\ locate root = ok item /\ extract item = ok r
    /\ format_lines r (now_utc w) = ok (lines_de, lines_en)
    /\ first_error (lib_raises w) (library_calls w lines_de lines_en) = None
    /\ img = render w lines_de lines_en.
Proof.
  rewrite main_display. intros H.
  destruct (display_lines w) as [e | [de en]] eqn:D; [discriminate H|].
  cbn [fst snd] in H.
  destruct (first_error (lib_raises w) (library_calls w de en)) eqn:F;
    [discriminate H|].
  injection H as <-.
  destruct (display_lines_ok_inv w _ D) as (root & item & r & E1 & E2 & E3 & E4).
  exists root, item, r, de, en. repeat split; assumption.
Qed.

(** X6: a run that saves an image has drawn exactly fifteen operations at
    fixed places: the title at y = 8, six German lines at y = 34, 52, 70,
    88, 106, 124, the rule at y = 146, six English lines at y = 154, 172,
    190, 208, 226, 244, and the footer; the first line of each block is the
    header with the timestamp. *)
Theorem main_image (w : world) (img : image) (Hok : main w = ok img) :
  exists d1 d2 d3 d4 d5 e1 e2 e3 e4 e5 x y,
    img = [ DrawText 10 8 title_text (title_font w);
            DrawText 10 34 ("DL2HT Solarbericht - " ++ now_utc w) (body_font w);
            DrawText 10 52 d1 (body_font w);
            DrawText 10 70 d2 (body_font w);
            DrawText 10 88 d3 (body_font w);
            DrawText 10 106 d4 (body_font w);
            DrawText 10 124 d5 (body_font w);
            DrawLine 10 146 630 146;
            DrawText 10 154 ("DL2HT Solar Report - " ++ now_utc w) (body_font w);
            DrawText 10 172 e1 (body_font w);
            DrawText 10 190 e2 (body_font w);
            DrawText 10 208 e3 (body_font w);
            DrawText 10 226 e4 (body_font w);
            DrawText 10 244 e5 (body_font w);
            DrawText x y footer_text (body_font w) ].
Proof.
  apply main_ok_inv in Hok.
  destruct Hok as (root & item & r & de & en & _ & _ & _ & Hf & _ & ->).
  pose proof (format_lines_cases r (now_utc w)) as H.
  destruct (PyFloat.to_int (sfi r)) as [e | n].
  - rewrite H in Hf. discriminate Hf.
  - destruct H as (d1 & d2 & d3 & d4 & d5 & e1 & e2 & e3 & e4 & e5 & H).
    rewrite H in Hf. injection Hf as <- <-.
    exists d1, d2, d3, d4, d5, e1, e2, e3, e4, e5.
    rewrite render_eq. do 2 eexists. reflexivity.
Qed.

Lemma main_image_witness :
  exists img,
    main (world_of (feed_of synthetic_record)) = ok img
    /\ exists d1 d2 d3 d4 d5 e1 e2 e3 e4 e5 x y,
         img = [ DrawText 10 8 title_text (Truetype "arial.ttf" 18);
                 DrawText 10 34 "DL2HT Solarbericht - 03 Nov 2026, 10:31 UTC"
                          (Truetype "arial.ttf" 14);
                 DrawText 10 52 d1 (Truetype "arial.ttf" 14);
                 DrawText 10 70 d2 (Truetype "arial.ttf" 14);
                 DrawText 10 88 d3 (Truetype "arial.ttf" 14);
                 DrawText 10 106 d4 (Truetype "arial.ttf" 14);
                 DrawText 10 124 d5 (Truetype "arial.ttf" 14);
                 DrawLine 10 146 630 146;
                 DrawText 10 154 "DL2HT Solar Report - 03 Nov 2026, 10:31 UTC"
                          (Truetype "arial.ttf" 14);
                 DrawText 10 172 e1 (Truetype "arial.ttf" 14);
                 DrawText 10 190 e2 (Truetype "arial.ttf" 14);
                 DrawText 10 208 e3 (Truetype "arial.ttf" 14);
                 DrawText 10 226 e4 (Truetype "arial.ttf" 14);
                 DrawText 10 244 e5 (Truetype "arial.ttf" 14);
                 DrawText x y footer_text (Truetype "arial.ttf" 14) ].
Proof.
  eexists. split; [vm_compute; reflexivity|].
  apply (main_image (world_of (feed_of synthetic_record))).
  vm_compute. reflexivity.
Defined.

Lemma locate_raise root e :
  locate root = raise e -> e = SystemExit "Konnte solardata-Element nicht finden".
Proof.
  unfold locate.
  destruct (find root ["channel"; "item"; "solardata"]); [discriminate|].
  destruct (find root ["channel"; "item"]); [discriminate|].
  intros H. injection H as <-. reflexivity.
Qed.

Lemma format_lines_raise_kind r now e :
  format_lines r now = raise e -> e = ValueError \/ e = OverflowError.
Proof.
  pose proof (format_lines_cases r now) as H.
  destruct (PyFloat.to_int (sfi r)) as [e' | n] eqn:E.
  - rewrite H. intros F. injection F as <-. eapply to_int_raise, E.
  - destruct H as (d1 & d2 & d3 & d4 & d5 & e1 & e2 & e3 & e4 & e5 & H).
    rewrite H. discriminate.
Qed.

Lemma display_lines_raise_kind w e :
  display_lines w = raise e ->
  response w = raise e
  \/ e = SystemExit "Konnte solardata-Element nicht finden"
  \/ e = ValueError \/ e = OverflowError.
Proof.
  unfold display_lines. intros Hr.
  apply bind_raise_inv in Hr. destruct Hr as [Hr | (root & _ & Hr)]; [left; exact Hr|].
  right.
  apply bind_raise_inv in Hr. destruct Hr as [Hr | (item & _ & Hr)];
    [left; eapply locate_raise, Hr|].
  right.
  apply bind_raise_inv in Hr. destruct Hr as [Hr | (r & _ & Hr)];
    [eapply extract_raise_kind, Hr | eapply format_lines_raise_kind, Hr].
Qed.

(** X7: a run that fails has failed either before drawing, with the
    exception of the fetch or of the XML parser, with [SystemExit] and the
    fixed message, with [ValueError] or with [OverflowError], or in the
    drawing stage, with the exception of the first call into Pillow that
    raises, all calls before it having returned; a failed fetch or parse is
    passed on unchanged; and in each case nothing is saved. *)
Theorem main_raises (w : world) (e : exn) (Hr : main w = raise e) :
  ((display_lines w = raise e
    /\ (response w = raise e
        \/ e = SystemExit "Konnte solardata-Element nicht finden"
        \/ e = ValueError \/ e = OverflowError))
   \/ (exists lines before c after,
         display_lines w = ok lines
         /\ library_calls w (fst lines) (snd lines) = (before ++ c :: after)%list
         /\ (forall c', In c' before -> lib_raises w c' = None)
         /\ lib_raises w c = Some e))
  /\ (forall e', response w = raise e' -> e = e')
  /\ saved_file (main w) = None.
Proof.
  split; [|split].
  - rewrite main_display in Hr.
    destruct (display_lines w) as [e0 | lines] eqn:D.
    + injection Hr as ->. left. split; [reflexivity|].
      apply display_lines_raise_kind, D.
    + right.
      destruct (first_error (lib_raises w)
                  (library_calls w (fst lines) (snd lines))) as [e0|] eqn:F;
        [|discriminate Hr].
      injection Hr as ->. apply first_error_Some in F.
      destruct F as (b & c & a & E & Hb & Hc). exists lines, b, c, a.
      split; [reflexivity|]. split; [exact E|]. split; [exact Hb | exact Hc].
  - intros e' He'. unfold main in Hr. rewrite He' in Hr. cbn [bind raise] in Hr.
    injection Hr as ->. reflexivity.
  - rewrite Hr. reflexivity.
Qed.

Lemma main_raises_witness :
  main (world_without_textsize (feed_of synthetic_record))
  = raise (LibraryError "AttributeError")
  /\ saved_file (main (world_without_textsize (feed_of synthetic_record))) = None.
Proof.
  split; [vm_compute; reflexivity|].
  apply (main_raises (world_without_textsize (feed_of synthetic_record))
           (LibraryError "AttributeError")).
  vm_compute. reflexivity.
Defined.






(** ** Reading the record *)

Lemma to_int_ok_finite x : (exists n, PyFloat.to_int x = ok n) <-> finite x.
Proof.
  unfold finite.
  destruct x as [s | s | | s m e]; cbn [PyFloat.to_int value number]; split;
    try (intros _; eexists; reflexivity); try reflexivity;
    try (intros (n & H); discriminate H); try (intros H; discriminate H).
  intros H. destruct s; discriminate H.
Qed.

Lemma float_text_iff s : float_text s <-> exists x, float_or_0 s = ok x.
Proof.
  unfold float_text. destruct s as [|c r].
  - split; [intros _; eexists; reflexivity | intros _; left; reflexivity].
  - rewrite float_or_0_nonempty by discriminate. split.
    + intros [H | H]; [discriminate H | exact H].
    + intros H. right. exact H.
Qed.

Lemma int_text_iff s : int_text s <-> exists n, int_float_or_0 s = ok n.
Proof.
  unfold int_text, int_float_or_0. destruct s as [|c r].
  - split; [intros _; eexists; reflexivity | intros _; left; reflexivity].
  - rewrite float_or_0_nonempty by discriminate. split.
    + intros [H | (x & Hx & Hf)]; [discriminate H|].
      rewrite Hx. cbn [bind ok]. apply to_int_ok_finite, Hf.
    + intros (n & H). apply bind_ok_inv in H. destruct H as (x & Hx & Hn).
      right. exists x. split; [exact Hx|]. apply to_int_ok_finite. exists n. exact Hn.
Qed.

(** X9: extraction succeeds exactly when the texts of solarflux and aurora
    are empty or accepted by [float] and those of aindex and kindex are
    empty or accepted by [float] with a finite value; the texts of sunspots,
    xray, geomagfield and signalnoise never make it fail. *)
Theorem extract_succeeds (item : Element) :
  (exists r, extract item = ok r)
  <-> float_text (safe_get item "solarflux" "0")
      /\ int_text (safe_get item "aindex" "0")
      /\ int_text (safe_get item "kindex" "0")
      /\ float_text (safe_get item "aurora" "0").
Proof.
  rewrite !float_text_iff, !int_text_iff. split.
  - intros (r & H). apply extract_ok_inv in H.
    destruct H as (E1 & _ & E2 & E3 & _ & E4 & _).
    repeat split; eexists; eassumption.
  - intros ((x1 & E1) & (x2 & E2) & (x3 & E3) & (x4 & E4)).
    unfold extract. rewrite E1, E2, E3, E4. cbn [bind ok]. eexists. reflexivity.
Qed.

Lemma to_int_overflow x :
  PyFloat.to_int x = raise OverflowError -> exists s, x = PyFloat.inf s.
Proof.
  destruct x as [s | s | | s m e]; cbn [PyFloat.to_int]; intros H;
    try discriminate H. exists s. reflexivity.
Qed.

Lemma int_float_or_0_overflow s :
  int_float_or_0 s = raise OverflowError ->
  exists sg, PyFloat.of_str s = ok (PyFloat.inf sg).
Proof.
  unfold int_float_or_0. intros H. apply bind_raise_inv in H.
  destruct H as [H | (x & Hx & H)].
  - apply float_or_0_raise in H. discriminate H.
  - apply to_int_overflow in H. destruct H as (sg & ->). exists sg.
    destruct s as [|c r]; [discriminate Hx|].
    rewrite float_or_0_nonempty in Hx by discriminate. exact Hx.
Qed.

(** X10: extraction raises [OverflowError] only when the text of aindex or
    of kindex reads as an infinity. *)
Theorem extract_overflow (item : Element)
    (Hr : extract item = raise OverflowError) :
  exists t sg,
    (t = "aindex" \/ t = "kindex")
    /\ PyFloat.of_str (safe_get item t "0") = ok (PyFloat.inf sg).
Proof.
  unfold extract in Hr.
  apply bind_raise_inv in Hr. destruct Hr as [H | (x1 & _ & Hr)].
  { apply float_or_0_raise in H. discriminate H. }
  apply bind_raise_inv in Hr. destruct Hr as [H | (x2 & _ & Hr)].
  { apply int_float_or_0_overflow in H. destruct H as (sg & H).
    exists "aindex", sg. split; [left; reflexivity | exact H]. }
  apply bind_raise_inv in Hr. destruct Hr as [H | (x3 & _ & Hr)].
  { apply int_float_or_0_overflow in H. destruct H as (sg & H).
    exists "kindex", sg. split; [right; reflexivity | exact H]. }
  apply bind_raise_inv in Hr. destruct Hr as [H | (x4 & _ & Hr)].
  { apply float_or_0_raise in H. discriminate H. }
  discriminate Hr.
Qed.

Lemma extract_overflow_witness :
  extract (Elem "solardata" None [leaf "kindex" "-inf"]) = raise OverflowError
  /\ exists t sg,
       (t = "aindex" \/ t = "kindex")
       /\ PyFloat.of_str (safe_get (Elem "solardata" None [leaf "kindex" "-inf"]) t "0")
          = ok (PyFloat.inf sg).
Proof.
  split; [reflexivity|].
  apply (extract_overflow (Elem "solardata" None [leaf "kindex" "-inf"])).
  reflexivity.
Defined.

(** ** Children of the record node *)

Lemma find_list_app {A} (f : A -> bool) l1 l2 :
  List.find f (l1 ++ l2)
  = match List.find f l1 with
    | Some x => Some x
    | None => List.find f l2
    end.
Proof.
  induction l1 as [|x l1 IH]; [reflexivity|]. cbn [app List.find].
  destruct (f x); [reflexivity | exact IH].
Qed.

Lemma find_list_none {A} (f : A -> bool) l :
  (forall x, In x l -> f x = false) -> List.find f l = None.
Proof.
  induction l as [|x l IH]; intros H; [reflexivity|]. cbn [List.find].
  rewrite (H x (or_introl eq_refl)). apply IH. intros y Hy. apply H. right. exact Hy.
Qed.

Lemma safe_get_children g x g' x' cs t d :
  safe_get (Elem g x cs) t d = safe_get (Elem g' x' cs) t d.
Proof. unfold safe_get. rewrite !find_child. reflexivity. Qed.

Lemma safe_get_drop g x l1 c l2 t d :
  tag c <> t ->
  safe_get (Elem g x (l1 ++ c :: l2)) t d = safe_get (Elem g x (l1 ++ l2)) t d.
Proof.
  intros Hc. unfold safe_get. rewrite !find_child. cbn [children].
  rewrite !find_list_app. cbn [List.find].
  destruct (String.eqb_spec (tag c) t) as [E | _]; [contradiction|]. reflexivity.
Qed.

(** X11: a field is read from the first child of that name and from it
    alone: children before it with other names, and every child after it,
    also one of the same name that has text when the first has none, do not
    change the value. *)
Theorem safe_get_first_match (g : string) (x : option string)
    (l1 l2 : list Element) (c : Element) (t d : string)
    (Hl1 : forall c', In c' l1 -> tag c' <> t) (Hc : tag c = t) :
  safe_get (Elem g x (l1 ++ c :: l2)) t d
  = match text c with
    | None => d
    | Some s => PyStr.strip s
    end.
Proof.
  unfold safe_get. rewrite find_child. cbn [children].
  rewrite find_list_app, find_list_none.
  - cbn [List.find]. rewrite (proj2 (String.eqb_eq (tag c) t) Hc). reflexivity.
  - intros c' Hc'. apply String.eqb_neq, Hl1, Hc'.
Qed.

Lemma safe_get_first_match_witness :
  safe_get (Elem "solardata" None
              [leaf "aindex" "2"; Elem "kindex" None []; leaf "kindex" "7"])
           "kindex" "0" = "0".
Proof.
  apply (safe_get_first_match "solardata" None [leaf "aindex" "2"]
           [leaf "kindex" "7"] (Elem "kindex" None []) "kindex" "0").
  - intros c' [<- | []]. discriminate.
  - reflexivity.
Defined.

Lemma extract_congr item item' :
  (forall t d, In t record_tags -> safe_get item t d = safe_get item' t d) ->
  extract item = extract item'.
Proof.
  intros H. unfold extract.
  rewrite !(H _ _) by (cbn; tauto). reflexivity.
Qed.

(** X12: extraction reads the eight known children of the record node and
    nothing else: a child with any other name can be removed, and the tag
    and the text of the record node itself can be changed, without changing
    the result. *)
Theorem extract_ignores_others (g : string) (x : option string)
    (l1 l2 : list Element) (c : Element)
    (Hc : ~ In (tag c) record_tags) :
  extract (Elem g x (l1 ++ c :: l2)) = extract (Elem g x (l1 ++ l2))
  /\ forall g' x', extract (Elem g' x' (l1 ++ c :: l2)) = extract (Elem g x (l1 ++ l2)).
Proof.
  assert (A : forall g' x',
             extract (Elem g' x' (l1 ++ c :: l2)) = extract (Elem g x (l1 ++ l2))).
  { intros g' x'. apply extract_congr. intros t d Ht.
    rewrite (safe_get_children g' x' g x). apply safe_get_drop.
    intros E. apply Hc. rewrite E. exact Ht. }
  split; [apply A | exact A].
Qed.

Lemma extract_ignores_others_witness :
  extract (Elem "item" (Some "x") (leaf "updated" "now" :: synthetic_fields))
  = extract synthetic_record.
Proof.
  apply (extract_ignores_others "solardata" None [] synthetic_fields
           (leaf "updated" "now")).
  cbn. intuition discriminate.
Defined.

(** ** Trimmed text *)

Lemma lstrip_fixed sp s :
  PyStr.lstrip sp (PyStr.lstrip sp s) = PyStr.lstrip sp s.
Proof.
  induction s as [|c r IH]; [reflexivity|]. cbn [PyStr.lstrip].
  destruct (sp c) eqn:E; [exact IH|]. cbn [PyStr.lstrip]. rewrite E. reflexivity.
Qed.

(** A string that [rstrip sp] leaves unchanged is left unchanged by
    [rstrip] for every smaller set of characters. *)
Lemma rstrip_fixed_sub (sp sp' : ascii -> bool) :
  (forall c, sp' c = true -> sp c = true) ->
  forall s, PyStr.rstrip sp s = s -> PyStr.rstrip sp' s = s.
Proof.
  intros Hsub. induction s as [|c r IH]; [reflexivity|].
  cbn [PyStr.rstrip]. intros H.
  destruct (PyStr.rstrip sp r) as [|c' r'] eqn:E.
  - destruct (sp c) eqn:Ec; [discriminate H|]. injection H as <-.
    cbn [PyStr.rstrip]. destruct (sp' c) eqn:Ec'; [|reflexivity].
    rewrite (Hsub c Ec') in Ec. discriminate Ec.
  - injection H as H. rewrite (IH H), <- H. reflexivity.
Qed.

Lemma rstrip_fixed sp s :
  PyStr.rstrip sp (PyStr.rstrip sp s) = PyStr.rstrip sp s.
Proof.
  induction s as [|c r IH]; [reflexivity|]. cbn [PyStr.rstrip].
  destruct (PyStr.rstrip sp r) as [|c' r'] eqn:E.
  - destruct (sp c) eqn:Ec; [reflexivity|]. cbn [PyStr.rstrip]. rewrite Ec. reflexivity.
  - cbn [PyStr.rstrip] in *. rewrite IH. reflexivity.
Qed.

(** [rstrip] keeps the first character of a string that does not start
    with a character of the set. *)
Lemma lstrip_rstrip (sp sp' : ascii -> bool) :
  (forall c, sp' c = true -> sp c = true) ->
  forall s, PyStr.lstrip sp s = s ->
            PyStr.lstrip sp' (PyStr.rstrip sp s) = PyStr.rstrip sp s.
Proof.
  intros Hsub s H. destruct s as [|c r]; [reflexivity|].
  cbn [PyStr.lstrip] in H. destruct (sp c) eqn:Ec.
  - exfalso. clear -H.
    assert (L : forall s, (String.length (PyStr.lstrip sp s) <= String.length s)%nat).
    { induction s as [|c' r' IH]; [apply Nat.le_refl|]. cbn [PyStr.lstrip].
      destruct (sp c'); cbn [String.length]; [|apply Nat.le_refl].
      apply Nat.le_trans with (1 := IH). apply Nat.le_succ_diag_r. }
    specialize (L r). rewrite H in L. cbn [String.length] in L. lia.
  - assert (Ec' : sp' c = false).
    { destruct (sp' c) eqn:E'; [|reflexivity]. rewrite (Hsub c E') in Ec. discriminate Ec. }
    cbn [PyStr.rstrip]. destruct (PyStr.rstrip sp r); rewrite ?Ec;
      cbn [PyStr.lstrip]; rewrite Ec'; reflexivity.
Qed.

Lemma strip_sub (sp' : ascii -> bool) :
  (forall c, sp' c = true -> PyStr.isspace c = true) ->
  forall s, PyStr.rstrip sp' (PyStr.lstrip sp' (PyStr.strip s)) = PyStr.strip s.
Proof.
  intros Hsub s. unfold PyStr.strip.
  rewrite (lstrip_rstrip PyStr.isspace sp' Hsub) by apply lstrip_fixed.
  apply (rstrip_fixed_sub PyStr.isspace sp' Hsub), rstrip_fixed.
Qed.

Lemma strip_trimmed s : trimmed (PyStr.strip s).
Proof. unfold trimmed. apply (strip_sub PyStr.isspace). intros c H. exact H. Qed.

Lemma arg_space_sub c : PyFloat.arg_space c = true -> PyStr.isspace c = true.
Proof.
  unfold PyFloat.arg_space, PyStr.c_isspace, PyStr.isspace. cbv zeta.
  destruct (PyStr.code c =? 133), (PyStr.code c =? 160);
    rewrite ?orb_true_r; try reflexivity.
  rewrite !orb_false_r. intros H. apply orb_prop in H. destruct H as [H | H].
  - apply orb_prop in H. destruct H as [H | H].
    + rewrite H. reflexivity.
    + apply Z.eqb_eq in H. rewrite H. reflexivity.
  - apply andb_prop in H. destruct H as [_ H]. exact H.
Qed.

Lemma safe_get_default_or_strip item t d :
  safe_get item t d = d \/ exists s, safe_get item t d = PyStr.strip s.
Proof.
  unfold safe_get. destruct (find item [t]) as [el|]; [|left; reflexivity].
  destruct (text el) as [s|]; [right; exists s | left]; reflexivity.
Qed.

(** X13: what [safe_get] returns is the default or a text without
    whitespace at either end, which [strip] and the whitespace removal of
    [float] leave unchanged; hence the four string fields of every report
    are free of surrounding whitespace. *)
Theorem safe_get_trimmed (item : Element) :
  (forall t d,
      safe_get item t d = d
      \/ (trimmed (safe_get item t d)
          /\ PyFloat.strip_arg (safe_get item t d) = safe_get item t d))
  /\ (forall s, PyStr.strip (PyStr.strip s) = PyStr.strip s)
  /\ (forall r, extract item = ok r ->
        trimmed (sn r) /\ trimmed (xray r) /\ trimmed (geomag r)
        /\ trimmed (sig_noise r)).
Proof.
  split; [|split].
  - intros t d. destruct (safe_get_default_or_strip item t d) as [H | (s & H)];
      [left; exact H | right]. rewrite H. split; [apply strip_trimmed|].
    apply (strip_sub PyFloat.arg_space arg_space_sub).
  - apply strip_trimmed.
  - intros r H. apply extract_ok_inv in H.
    destruct H as (_ & E1 & _ & _ & E2 & _ & E3 & E4).
    rewrite E1, E2, E3, E4.
    repeat split;
      match goal with
      | |- trimmed (safe_get ?i ?t ?d) =>
          destruct (safe_get_default_or_strip i t d) as [H | (s & H)];
          rewrite H; [reflexivity | apply strip_trimmed]
      end.
Qed.

Lemma safe_get_trimmed_witness :
  exists r, extract synthetic_record = ok r /\ trimmed (sn r).
Proof.
  eexists. split; [vm_compute; reflexivity|].
  apply (safe_get_trimmed synthetic_record). vm_compute. reflexivity.
Defined.

(** ** Where the record node is *)

Lemma at_path_prefix p : forall e t d,
  at_path e (p ++ [t]) d -> tag d = t /\ exists c, at_path e p c /\ In d (children c).
Proof.
  induction p as [|u p IH]; intros e t d H; cbn [app] in H.
  - inversion H as [| e0 t0 p0 c0 d0 Hin Ht Hp]; subst.
    inversion Hp; subst. split; [reflexivity|].
    exists e. split; [constructor | exact Hin].
  - inversion H as [| e0 t0 p0 c0 d0 Hin Ht Hp]; subst.
    apply IH in Hp. destruct Hp as (Ht & c & Hc & Hd).
    split; [exact Ht|]. exists c. split; [|exact Hd].
    econstructor; [exact Hin | reflexivity | exact Hc].
Qed.

(** X14: the record node is an element tagged solardata under some
    channel/item, or, when no item holds one, the first element tagged item
    under a channel; the run stops with [SystemExit] exactly when the
    document has no channel/item element at all (a solardata element
    elsewhere is never found); the tag and the text of the root play no
    part. *)
Theorem locate_result (root : Element) :
  (forall d, locate root = ok d ->
     (tag d = "solardata"
      /\ exists i, at_path root ["channel"; "item"] i /\ In d (children i))
     \/ (tag d = "item"
         /\ find root ["channel"; "item"] = Some d
         /\ forall s, ~ at_path root ["channel"; "item"; "solardata"] s))
  /\ ((exists e, locate root = raise e)
      <-> forall i, ~ at_path root ["channel"; "item"] i)
  /\ (forall g x, locate (Elem g x (children root)) = locate root).
Proof.
  split; [|split].
  - intros d H. unfold locate in H.
    destruct (find root ["channel"; "item"; "solardata"]) as [s|] eqn:E1.
    + injection H as <-. left. apply find_Some in E1.
      apply (at_path_prefix ["channel"; "item"]) in E1. exact E1.
    + destruct (find root ["channel"; "item"]) as [i|] eqn:E2; [|discriminate H].
      injection H as <-. right.
      pose proof (find_Some _ _ _ E2) as P.
      apply (at_path_prefix ["channel"]) in P. destruct P as [Ht _].
      split; [exact Ht|]. split; [reflexivity|]. apply find_None, E1.
  - split.
    + intros (e & H) i Hi. unfold locate in H.
      destruct (find root ["channel"; "item"; "solardata"]); [discriminate H|].
      destruct (find root ["channel"; "item"]) eqn:E2; [discriminate H|].
      exact (proj1 (find_None _ _) E2 i Hi).
    + intros N. unfold locate.
      destruct (find root ["channel"; "item"; "solardata"]) as [s|] eqn:E1.
      * exfalso. apply find_Some in E1.
        apply (at_path_prefix ["channel"; "item"]) in E1.
        destruct E1 as (_ & i & Hi & _). exact (N i Hi).
      * rewrite (proj2 (find_None _ _) N). eexists. reflexivity.
  - intros g x. destruct root as [g0 x0 cs]. reflexivity.
Qed.

Lemma locate_result_witness :
  locate (feed_of synthetic_record) = ok synthetic_record
  /\ ((tag synthetic_record = "solardata"
       /\ exists i, at_path (feed_of synthetic_record) ["channel"; "item"] i
                    /\ In synthetic_record (children i))
      \/ (tag synthetic_record = "item"
          /\ find (feed_of synthetic_record) ["channel"; "item"]
             = Some synthetic_record
          /\ forall s, ~ at_path (feed_of synthetic_record)
                                 ["channel"; "item"; "solardata"] s)).
Proof.
  split; [reflexivity|].
  apply (locate_result (feed_of synthetic_record)). reflexivity.
Defined.

(** ** Truncation *)

Lemma finite_value_abs s m e :
  (Qabs (finite_value s m e) == finite_value false m e)%Q.
Proof.
  unfold finite_value, Qeq, Qabs, inject_Z.
  destruct e as [| p | p], s; cbn [cond_Zopp Qnum Qden]; lia.
Qed.

Lemma finite_value_sign m e :
  (finite_value true m e < 0)%Q /\ (0 < finite_value false m e)%Q.
Proof.
  unfold finite_value, Qlt, inject_Z.
  destruct e as [| p | p]; cbn [cond_Zopp Qnum Qden]; split; lia.
Qed.

Lemma shiftl_magnitude m e :
  0 <= Z.shiftl (Zpos m) e
  /\ (inject_Z (Z.shiftl (Zpos m) e) <= finite_value false m e)%Q
  /\ (finite_value false m e < inject_Z (Z.shiftl (Zpos m) e) + 1)%Q.
Proof.
  split; [apply Z.shiftl_nonneg; lia|].
  unfold finite_value, Qle, Qlt, Qplus, inject_Z.
  destruct e as [| p | p]; cbn [cond_Zopp Qnum Qden].
  - cbn [Z.shiftl]. split; lia.
  - rewrite Z.shiftl_mul_pow2 by lia. split; lia.
  - change (Z.shiftl (Zpos m) (Zneg p)) with (Z.shiftr (Zpos m) (Zpos p)).
    rewrite Z.shiftr_div_pow2 by lia. rewrite Pos2Z.inj_pow.
    assert (HD : 0 < 2 ^ Zpos p) by (apply Z.pow_pos_nonneg; lia).
    pose proof (Z.div_mod (Zpos m) (2 ^ Zpos p) ltac:(lia)) as E.
    pose proof (Z.mod_pos_bound (Zpos m) (2 ^ Zpos p) HD) as B.
    split; nia.
Qed.

(** X15: [int(x)] succeeds exactly on the finite floats, and its result
    [n] has the sign of [x] (or is zero) and satisfies
    [|n| <= |x| < |n| + 1]: the value is cut toward zero, never rounded
    up in magnitude. *)
Theorem to_int_bounds (x : float) (n : Z) (Hn : PyFloat.to_int x = ok n) :
  finite x
  /\ (inject_Z (Z.abs n) <= Qabs (number x))%Q
  /\ (Qabs (number x) < inject_Z (Z.abs n) + 1)%Q
  /\ ((0 <= number x)%Q -> 0 <= n)
  /\ ((number x <= 0)%Q -> n <= 0).
Proof.
  split; [apply to_int_ok_finite; exists n; exact Hn|].
  destruct x as [s | s | | s m e]; cbn [PyFloat.to_int] in Hn; try discriminate Hn;
    injection Hn as <-; cbn [number].
  - repeat split; try discriminate; intros _; lia.
  - pose proof (shiftl_magnitude m e) as (P & L & U).
    pose proof (finite_value_sign m e) as (Sn & Sp).
    assert (A : Z.abs (cond_Zopp s (Z.shiftl (Zpos m) e)) = Z.shiftl (Zpos m) e).
    { destruct s; cbn [cond_Zopp]; lia. }
    rewrite A, finite_value_abs.
    split; [exact L|]. split; [exact U|].
    destruct s; cbn [cond_Zopp]; split; intros H; try lia.
    + exfalso. apply (Qlt_irrefl 0). eapply Qle_lt_trans; eassumption.
    + exfalso. apply (Qlt_irrefl 0). eapply Qlt_le_trans; eassumption.
Qed.

Lemma to_int_bounds_witness :
  PyFloat.to_int (PyFloat.of_ratio true 38 10) = ok (-3)
  /\ (inject_Z (Z.abs (-3)) <= Qabs (number (PyFloat.of_ratio true 38 10)))%Q.
Proof.
  split; [reflexivity|].
  exact (proj1 (proj2 (to_int_bounds (PyFloat.of_ratio true 38 10) (-3) eq_refl))).
Defined.

(** ** Integer texts *)

Lemma digits2_unique q n :
  2 ^ (n - 1) <= Zpos q < 2 ^ n -> Zpos (digits2_pos q) = n.
Proof.
  intros [L U]. pose proof (digits2_bound q) as [L' U'].
  set (d := Zpos (digits2_pos q)) in *. assert (0 < d) by (subst d; lia).
  assert (0 < n).
  { destruct (Z.lt_ge_cases 0 n) as [Hn | Hn]; [exact Hn|].
    assert (2 ^ n <= 2 ^ 0) by (apply Z.pow_le_mono_r; lia).
    change (2 ^ 0) with 1 in *. lia. }
  destruct (Z.lt_trichotomy d n) as [Hlt | [Heq | Hgt]]; [|exact Heq|].
  - assert (2 ^ d <= 2 ^ (n - 1)) by (apply Z.pow_le_mono_r; lia). lia.
  - assert (2 ^ n <= 2 ^ (d - 1)) by (apply Z.pow_le_mono_r; lia). lia.
Qed.

Lemma div_eucl_1 a : Z.div_eucl a 1 = (a, 0).
Proof.
  pose proof (Z.div_1_r a) as D. pose proof (Z.mod_1_r a) as M.
  unfold Z.div, Z.modulo in D, M. destruct (Z.div_eucl a 1) as [q r].
  cbn in D, M. subst. reflexivity.
Qed.

(** The double of a positive integer below [2^53]: the integer shifted
    left until it has 53 bits. *)
Lemma of_ratio_int p :
  Zpos p < 2 ^ 53 ->
  exists q,
    Zpos q = Zpos p * 2 ^ (53 - Zpos (digits2_pos p))
    /\ PyFloat.of_ratio false p 1
       = S754_finite false q (Zpos (digits2_pos p) - 53).
Proof.
  intros Hp.
  pose proof (digits2_bound p) as [L U].
  set (D := Zpos (digits2_pos p)) in *.
  assert (HD : 1 <= D <= 53).
  { split; [subst D; lia|].
    destruct (Z.le_gt_cases D 53) as [H | H]; [exact H|].
    assert (2 ^ 53 <= 2 ^ (D - 1)) by (apply Z.pow_le_mono_r; lia). lia. }
  assert (HQ : 0 < Zpos p * 2 ^ (53 - D)).
  { assert (0 < 2 ^ (53 - D)) by (apply Z.pow_pos_nonneg; lia). nia. }
  destruct (Zpos p * 2 ^ (53 - D)) as [| q | q] eqn:EQ; try lia.
  exists q. split; [reflexivity|].
  assert (Bq : 2 ^ 52 <= Zpos q < 2 ^ 53).
  { rewrite <- EQ. split.
    - replace 52 with ((D - 1) + (53 - D)) by lia. rewrite Z.pow_add_r by lia.
      apply Z.mul_le_mono_nonneg_r; [apply Z.pow_nonneg; lia | exact L].
    - replace 53 with (D + (53 - D)) at 2 by lia. rewrite Z.pow_add_r by lia.
      apply Z.mul_lt_mono_pos_r; [apply Z.pow_pos_nonneg; lia | exact U]. }
  assert (Dq : Zpos (digits2_pos q) = 53) by (apply digits2_unique; exact Bq).
  assert (Em : Z.shiftl (Zpos p) (54 - D) = Zpos q~0).
  { rewrite Z.shiftl_mul_pow2 by lia.
    replace (54 - D) with (Z.succ (53 - D)) by lia.
    rewrite Z.pow_succ_r by lia. lia. }
  unfold PyFloat.of_ratio, SFdiv, SFdiv_core_binary.
  cbn [Zdigits2 digits2_pos xorb]. fold D.
  assert (E1 : IntDef.Z.min (fexp PyFloat.prec PyFloat.emax (D + 0 - (1 + 0))) (0 - 0)
               = D - 54).
  { change IntDef.Z.min with Z.min.
    unfold fexp, SpecFloat.emin, PyFloat.prec, PyFloat.emax.
    change IntDef.Z.max with Z.max. change IntDef.Z.sub with Z.sub. lia. }
  rewrite E1. replace (0 - 0 - (D - 54)) with (54 - D) by lia.
  destruct (54 - D) as [| k | k] eqn:EK; try lia.
  change (IntDef.Z.shiftl (Zpos p) (Zpos k)) with (Z.shiftl (Zpos p) (Zpos k)).
  rewrite Em. change IntDef.Z.div_eucl with Z.div_eucl. rewrite div_eucl_1.
  change (new_location 1 0) with loc_Exact.
  unfold binary_round_aux, shr_fexp.
  cbn [Zdigits2 digits2_pos shr_record_of_loc].
  change (PosDef.Pos.succ (digits2_pos q)) with (Pos.succ (digits2_pos q)).
  rewrite Pos2Z.inj_succ, Dq.
  assert (E2 : fexp PyFloat.prec PyFloat.emax (Z.succ 53 + (D - 54)) - (D - 54) = 1).
  { unfold fexp, SpecFloat.emin, PyFloat.prec, PyFloat.emax.
    change IntDef.Z.max with Z.max. change IntDef.Z.sub with Z.sub. lia. }
  rewrite E2. cbn [shr iter_pos shr_1 orb shr_m loc_of_shr_record round_nearest_even].
  cbn [Zdigits2]. rewrite Dq.
  change (IntDef.Z.add (D - 54) 1) with (D - 54 + 1).
  assert (E3 : fexp PyFloat.prec PyFloat.emax (53 + (D - 54 + 1)) - (D - 54 + 1) = 0).
  { unfold fexp, SpecFloat.emin, PyFloat.prec, PyFloat.emax.
    change IntDef.Z.max with Z.max. change IntDef.Z.sub with Z.sub. lia. }
  rewrite E3. cbn [shr shr_m].
  replace (D - 54 + 1) with (D - 53) by lia.
  destruct (Z.leb_spec (D - 53) (PyFloat.emax - PyFloat.prec)) as [_ | H];
    [reflexivity|].
  unfold PyFloat.emax, PyFloat.prec in H. lia.
Qed.


Lemma of_ratio_int_facts p :
  Zpos p < 2 ^ 53 ->
  valid (PyFloat.of_ratio false p 1)
  /\ finite (PyFloat.of_ratio false p 1)
  /\ (number (PyFloat.of_ratio false p 1) == inject_Z (Zpos p))%Q
  /\ PyFloat.to_int (PyFloat.of_ratio false p 1) = ok (Zpos p).
Proof.
  intros Hp. destruct (of_ratio_int p Hp) as (q & Eq & ->).
  pose proof (digits2_bound p) as [L U].
  set (D := Zpos (digits2_pos p)) in *.
  assert (HD : 1 <= D <= 53).
  { split; [subst D; lia|].
    destruct (Z.le_gt_cases D 53) as [H | H]; [exact H|].
    assert (2 ^ 53 <= 2 ^ (D - 1)) by (apply Z.pow_le_mono_r; lia). lia. }
  assert (P2 : 0 < 2 ^ (53 - D)) by (apply Z.pow_pos_nonneg; lia).
  assert (Bq : 2 ^ 52 <= Zpos q < 2 ^ 53).
  { rewrite Eq. split.
    - replace 52 with ((D - 1) + (53 - D)) by lia. rewrite Z.pow_add_r by lia.
      apply Z.mul_le_mono_nonneg_r; [lia | exact L].
    - replace 53 with (D + (53 - D)) at 2 by lia. rewrite Z.pow_add_r by lia.
      apply Z.mul_lt_mono_pos_r; [lia | exact U]. }
  assert (Dq : Zpos (digits2_pos q) = 53) by (apply digits2_unique; exact Bq).
  split.
  { unfold valid, valid_binary, bounded, canonical_mantissa, fexp, SpecFloat.emin,
      PyFloat.prec, PyFloat.emax.
    rewrite Dq. change IntDef.Z.max with Z.max. change IntDef.Z.sub with Z.sub.
    apply andb_true_intro. split; [apply Z.eqb_eq | apply Z.leb_le]; lia. }
  split; [reflexivity|].
  assert (Sh : Z.shiftl (Zpos q) (D - 53) = Zpos p).
  { replace (D - 53) with (- (53 - D)) by lia.
    rewrite Z.shiftl_opp_r, Z.shiftr_div_pow2 by lia.
    rewrite Eq. apply Z.div_mul. lia. }
  split; [|cbn [PyFloat.to_int cond_Zopp]; rewrite Sh; reflexivity].
  cbn [number]. unfold finite_value, Qeq, inject_Z.
  destruct (D - 53) as [| j | j] eqn:Ej; cbn [cond_Zopp Qnum Qden]; try lia.
  - replace (53 - D) with 0 in Eq by lia. change (2 ^ 0) with 1 in *. lia.
  - rewrite Pos2Z.inj_pow. replace (53 - D) with (Zpos j) in Eq by lia. lia.
Qed.

Lemma digit_not_space c : PyFloat.is_digit c = true -> PyFloat.arg_space c = false.
Proof.
  unfold PyFloat.is_digit, PyFloat.arg_space, PyStr.c_isspace, PyStr.isspace.
  cbv zeta. intros H. apply andb_prop in H. destruct H as [H1 H2].
  apply Z.leb_le in H1, H2.
  repeat match goal with
         | |- context [?a <=? ?b] => destruct (Z.leb_spec a b); try lia
         | |- context [?a =? ?b] => destruct (Z.eqb_spec a b); try lia
         end; reflexivity.
Qed.

Lemma digit_not_underscore c : PyFloat.is_digit c = true -> Ascii.eqb c "_" = false.
Proof.
  intros H. destruct (Ascii.eqb_spec c "_") as [-> | _]; [discriminate H | reflexivity].
Qed.

Lemma rstrip_digits s :
  all_digits s = true -> PyStr.rstrip PyFloat.arg_space s = s.
Proof.
  induction s as [|c r IH]; [reflexivity|]. cbn [all_digits PyStr.rstrip].
  intros H. apply andb_prop in H. destruct H as [Hc Hr].
  rewrite (IH Hr). destruct r; [|reflexivity].
  rewrite (digit_not_space c Hc). reflexivity.
Qed.

Lemma strip_arg_digits s : all_digits s = true -> PyFloat.strip_arg s = s.
Proof.
  intros H. unfold PyFloat.strip_arg.
  assert (E : PyStr.lstrip PyFloat.arg_space s = s).
  { destruct s as [|c r]; [reflexivity|]. cbn [all_digits] in H.
    apply andb_prop in H. destruct H as [Hc _].
    cbn [PyStr.lstrip]. rewrite (digit_not_space c Hc). reflexivity. }
  rewrite E. apply rstrip_digits, H.
Qed.

Lemma drop_underscores_digits s : forall prev,
  all_digits s = true -> Ascii.eqb prev "_" = false ->
  PyFloat.drop_underscores prev s = Some s.
Proof.
  induction s as [|c r IH]; intros prev H Hp; cbn [PyFloat.drop_underscores].
  - rewrite Hp. reflexivity.
  - cbn [all_digits] in H. apply andb_prop in H. destruct H as [Hc Hr].
    rewrite (digit_not_underscore c Hc), Hp. cbn [andb].
    rewrite (IH c Hr (digit_not_underscore c Hc)). reflexivity.
Qed.

Lemma span_digits_all s : all_digits s = true -> PyFloat.span_digits s = (s, "").
Proof.
  induction s as [|c r IH]; [reflexivity|]. cbn [all_digits PyFloat.span_digits].
  intros H. apply andb_prop in H. destruct H as [Hc Hr].
  rewrite Hc, (IH Hr). reflexivity.
Qed.

Lemma parse_signed_digit c r :
  PyFloat.is_digit c = true ->
  PyFloat.parse_signed (String c r) = PyFloat.parse_number false (String c r).
Proof.
  destruct c as [[] [] [] [] [] [] [] []]; intros H;
    try discriminate H; reflexivity.
Qed.

Lemma digits_value_nonneg s : forall acc,
  all_digits s = true -> 0 <= acc -> 0 <= PyFloat.digits_value acc s.
Proof.
  induction s as [|c r IH]; intros acc H Ha; cbn [PyFloat.digits_value]; [exact Ha|].
  cbn [all_digits] in H. apply andb_prop in H. destruct H as [Hc Hr].
  apply IH; [exact Hr|]. unfold PyFloat.is_digit in Hc.
  apply andb_prop in Hc. destruct Hc as [H1 _]. apply Z.leb_le in H1.
  unfold PyFloat.digit_val. lia.
Qed.

(** [float] on a non-empty string of digits. *)
Lemma of_str_digits s :
  s <> "" -> all_digits s = true ->
  PyFloat.of_str s = ok (PyFloat.of_decimal false (PyFloat.digits_value 0 s) 0).
Proof.
  intros Hne H. unfold PyFloat.of_str.
  rewrite (strip_arg_digits s H), (drop_underscores_digits s zero H eq_refl).
  destruct s as [|c r]; [congruence|].
  pose proof H as H'. cbn [all_digits] in H'. apply andb_prop in H'.
  destruct H' as [Hc _].
  rewrite (parse_signed_digit c r Hc). unfold PyFloat.parse_number.
  rewrite (span_digits_all _ H), append_empty_r. reflexivity.
Qed.

Lemma of_decimal_int_facts n :
  0 <= n < 2 ^ 53 ->
  valid (PyFloat.of_decimal false n 0)
  /\ finite (PyFloat.of_decimal false n 0)
  /\ (number (PyFloat.of_decimal false n 0) == inject_Z n)%Q
  /\ PyFloat.to_int (PyFloat.of_decimal false n 0) = ok n.
Proof.
  intros [H0 H1]. destruct n as [| p | p]; [| |lia].
  - repeat split; reflexivity.
  - unfold PyFloat.of_decimal. change (0 <=? 0) with true. cbv iota.
    change (Z.to_pos (10 ^ 0)) with 1%positive. rewrite Pos.mul_1_r.
    apply of_ratio_int_facts, H1.
Qed.

(** X16: a numeric field whose text is a non-empty string of decimal
    digits (leading zeros allowed) with value [n] below [2^53] is read
    without error and exactly: [float] gives a canonical finite double
    whose value is [n], and [int(float(...))] gives [n]. *)
Theorem integer_text_exact (s : string)
    (Hne : s <> "") (Hd : all_digits s = true)
    (Hb : PyFloat.digits_value 0 s < 2 ^ 53) :
  exists x,
    float_or_0 s = ok x
    /\ valid x /\ finite x
    /\ (number x == inject_Z (PyFloat.digits_value 0 s))%Q
    /\ int_float_or_0 s = ok (PyFloat.digits_value 0 s).
Proof.
  pose proof (digits_value_nonneg s 0 Hd (Z.le_refl 0)) as H0.
  destruct (of_decimal_int_facts (PyFloat.digits_value 0 s) (conj H0 Hb))
    as (V & F & N & T).
  exists (PyFloat.of_decimal false (PyFloat.digits_value 0 s) 0).
  assert (E : float_or_0 s
              = ok (PyFloat.of_decimal false (PyFloat.digits_value 0 s) 0)).
  { rewrite float_or_0_nonempty by exact Hne. apply of_str_digits; assumption. }
  split; [exact E|]. split; [exact V|]. split; [exact F|]. split; [exact N|].
  unfold int_float_or_0. rewrite E. cbn [bind ok]. exact T.
Qed.

Lemma integer_text_exact_witness :
  "007" <> "" /\ all_digits "007" = true /\ PyFloat.digits_value 0 "007" < 2 ^ 53
  /\ exists x, float_or_0 "007" = ok x
               /\ valid x /\ finite x
               /\ (number x == inject_Z (PyFloat.digits_value 0 "007"))%Q
               /\ int_float_or_0 "007" = ok (PyFloat.digits_value 0 "007").
Proof.
  split; [discriminate|]. split; [reflexivity|]. split; [reflexivity|].
  apply (integer_text_exact "007"); [discriminate | reflexivity | reflexivity].
Defined.

Lemma below_int x n q :
  finite x -> (number x == inject_Z n)%Q -> below x (inject_Z q) <-> n < q.
Proof.
  unfold finite, below. intros F N. rewrite F. cbn [xlt]. rewrite N.
  unfold Qlt, inject_Z. cbn [Qnum Qden]. lia.
Qed.

Lemma at_least_int x n q :
  finite x -> (number x == inject_Z n)%Q -> at_least x (inject_Z q) <-> q <= n.
Proof.
  unfold finite, at_least. intros F N. rewrite F. cbn [xle]. rewrite N.
  unfold Qle, inject_Z. cbn [Qnum Qden]. lia.
Qed.

Lemma finite_not_nan x : finite x -> x <> PyFloat.nan.
Proof. intros F E. rewrite E in F. discriminate F. Qed.

(** X17: when the solarflux text is a string of digits with value
    [n < 2^53], the phrase pair chosen by the run is the weak one iff
    [n < 80], the good one iff [80 <= n < 120], the very good one iff
    [120 <= n < 160] and the excellent one iff [160 <= n]: parsing the text
    and comparing the double never moves an integer across a threshold. *)
Theorem integer_solarflux_band (s : string)
    (Hne : s <> "") (Hd : all_digits s = true)
    (Hb : PyFloat.digits_value 0 s < 2 ^ 53) :
  let n := PyFloat.digits_value 0 s in
  exists p,
    classify_text classify_sfi s = ok p
    /\ (p = sfi_weak <-> n < 80)
    /\ (p = sfi_good <-> 80 <= n < 120)
    /\ (p = sfi_very_good <-> 120 <= n < 160)
    /\ (p = sfi_excellent <-> 160 <= n).
Proof.
  intros n.
  pose proof (digits_value_nonneg s 0 Hd (Z.le_refl 0)) as H0.
  destruct (of_decimal_int_facts n (conj H0 Hb)) as (V & F & N & _).
  exists (classify_sfi (PyFloat.of_decimal false n 0)).
  split.
  { unfold classify_text. rewrite (of_str_digits s Hne Hd). reflexivity. }
  destruct (classify_sfi_bands _ V (finite_not_nan _ F)) as (B1 & B2 & B3 & B4).
  rewrite B1, B2, B3, B4.
  change 80%Q with (inject_Z 80). change 120%Q with (inject_Z 120).
  change 160%Q with (inject_Z 160).
  rewrite !(below_int _ n _ F N), !(at_least_int _ n _ F N).
  repeat split; tauto.
Qed.

Lemma integer_solarflux_band_witness :
  exists p, classify_text classify_sfi "0150" = ok p
            /\ (p = sfi_very_good <-> 120 <= PyFloat.digits_value 0 "0150" < 160).
Proof.
  destruct (integer_solarflux_band "0150" ltac:(discriminate) eq_refl eq_refl)
    as (p & E & _ & _ & B & _).
  exists p. split; [exact E | exact B].
Defined.

(** X18: the same for the aurora text: the unlikely pair iff [n < 5], the
    possible pair iff [5 <= n < 7], the high-probability pair iff
    [7 <= n]. *)
Theorem integer_aurora_band (s : string)
    (Hne : s <> "") (Hd : all_digits s = true)
    (Hb : PyFloat.digits_value 0 s < 2 ^ 53) :
  let n := PyFloat.digits_value 0 s in
  exists p,
    classify_text classify_aurora s = ok p
    /\ (p = aurora_unlikely <-> n < 5)
    /\ (p = aurora_possible <-> 5 <= n < 7)
    /\ (p = aurora_high <-> 7 <= n).
Proof.
  intros n.
  pose proof (digits_value_nonneg s 0 Hd (Z.le_refl 0)) as H0.
  destruct (of_decimal_int_facts n (conj H0 Hb)) as (V & F & N & _).
  exists (classify_aurora (PyFloat.of_decimal false n 0)).
  split.
  { unfold classify_text. rewrite (of_str_digits s Hne Hd). reflexivity. }
  destruct (classify_aurora_bands _ V (finite_not_nan _ F)) as (B1 & B2 & B3).
  rewrite B1, B2, B3.
  change 5%Q with (inject_Z 5). change 7%Q with (inject_Z 7).
  rewrite !(below_int _ n _ F N), !(at_least_int _ n _ F N).
  repeat split; tauto.
Qed.

Lemma integer_aurora_band_witness :
  exists p, classify_text classify_aurora "6" = ok p
            /\ (p = aurora_possible <-> 5 <= PyFloat.digits_value 0 "6" < 7).
Proof.
  destruct (integer_aurora_band "6" ltac:(discriminate) eq_refl eq_refl)
    as (p & E & _ & B & _).
  exists p. split; [exact E | exact B].
Defined.

(** ** A record of integers, end to end *)

Lemma float_or_0_digits s :
  all_digits s = true ->
  float_or_0 s = ok (PyFloat.of_decimal false (PyFloat.digits_value 0 s) 0).
Proof.
  intros H. destruct s as [|c r]; [reflexivity|].
  rewrite float_or_0_nonempty by discriminate. apply of_str_digits; [discriminate | exact H].
Qed.

Lemma classify_sfi_ladder n :
  0 <= n < 2 ^ 53 -> classify_sfi (PyFloat.of_decimal false n 0) = sfi_ladder n.
Proof.
  intros Hn. destruct (of_decimal_int_facts n Hn) as (V & F & N & _).
  destruct (classify_sfi_bands _ V (finite_not_nan _ F)) as (B1 & B2 & B3 & B4).
  change 80%Q with (inject_Z 80) in *. change 120%Q with (inject_Z 120) in *.
  change 160%Q with (inject_Z 160) in *.
  rewrite !(below_int _ n _ F N), ?(at_least_int _ n _ F N) in *.
  unfold sfi_ladder.
  destruct (Z.ltb_spec n 80); [apply B1; lia|].
  destruct (Z.ltb_spec n 120); [apply B2; lia|].
  destruct (Z.ltb_spec n 160); [apply B3; lia | apply B4; lia].
Qed.

Lemma classify_aurora_ladder n :
  0 <= n < 2 ^ 53 -> classify_aurora (PyFloat.of_decimal false n 0) = aurora_ladder n.
Proof.
  intros Hn. destruct (of_decimal_int_facts n Hn) as (V & F & N & _).
  destruct (classify_aurora_bands _ V (finite_not_nan _ F)) as (B1 & B2 & B3).
  change 5%Q with (inject_Z 5) in *. change 7%Q with (inject_Z 7) in *.
  rewrite !(below_int _ n _ F N), ?(at_least_int _ n _ F N) in *.
  unfold aurora_ladder.
  destruct (Z.ltb_spec n 5); [apply B1; lia|].
  destruct (Z.ltb_spec n 7); [apply B2; lia | apply B3; lia].
Qed.

Lemma round_half_even_exact a d : 0 < d -> PyFloat.round_half_even (a * d) d = a.
Proof.
  intros Hd. unfold PyFloat.round_half_even.
  rewrite Z.div_mul, Z.mod_mul by lia.
  destruct (Z.compare_spec (2 * 0) d); lia.
Qed.

(** An integer below [2^53] is displayed with one decimal as itself
    followed by [.0]. *)
Lemma format_1f_int n :
  0 <= n < 2 ^ 53 ->
  PyFloat.format_1f (PyFloat.of_decimal false n 0) = (PyStr.of_int n ++ ".0")%string.
Proof.
  intros [H0 H1]. destruct n as [| p | p]; [reflexivity | | lia].
  unfold PyFloat.of_decimal. change (0 <=? 0) with true. cbv iota.
  change (Z.to_pos (10 ^ 0)) with 1%positive. rewrite Pos.mul_1_r.
  destruct (of_ratio_int p H1) as (q & Eq & ->).
  pose proof (digits2_bound p) as [L U].
  set (D := Zpos (digits2_pos p)) in *.
  assert (HD : 1 <= D <= 53).
  { split; [subst D; lia|].
    destruct (Z.le_gt_cases D 53) as [H | H]; [exact H|].
    assert (2 ^ 53 <= 2 ^ (D - 1)) by (apply Z.pow_le_mono_r; lia). lia. }
  assert (T : PyFloat.tenths q (D - 53) = 10 * Zpos p).
  { unfold PyFloat.tenths. destruct (D - 53) as [| j | j] eqn:Ej; try lia.
    - replace (53 - D) with 0 in Eq by lia. change (2 ^ 0) with 1 in *. lia.
    - replace (53 - D) with (Zpos j) in Eq by lia.
      rewrite Eq, Pos2Z.inj_pow, Z.mul_assoc.
      apply round_half_even_exact. apply Z.pow_pos_nonneg; lia. }
  cbn [PyFloat.format_1f PyFloat.sign_str]. rewrite T.
  rewrite (Z.mul_comm 10), Z.div_mul, Z.mod_mul by lia. reflexivity.
Qed.

Lemma append_assoc_str (x y z : string) :
  ((x ++ y) ++ z)%string = (x ++ (y ++ z))%string.
Proof. induction x as [|c x IH]; [reflexivity|]. cbn. rewrite IH. reflexivity. Qed.

Lemma format_lines_ok r now n :
  PyFloat.to_int (sfi r) = ok n ->
  format_lines r now
  = ok ([ "DL2HT Solarbericht - " ++ now;
          "SFI " ++ PyStr.of_int n ++ " / SN " ++ sn r ++ " - "
            ++ fst (classify_sfi (sfi r));
          "A=" ++ PyStr.of_int (a r) ++ ", K=" ++ PyStr.of_int (k r) ++ " - "
            ++ fst (classify_k (k r));
          "Aurora-Index " ++ PyFloat.format_1f (aurora r) ++ " - "
            ++ fst (classify_aurora (aurora r));
          "X-Ray " ++ xray_or_na (xray r) ++ " - " ++ fst (classify_xray (xray r));
          "Geomag: " ++ geomag r ++ ", Rauschpegel: " ++ sig_noise r ]%string,
        [ "DL2HT Solar Report - " ++ now;
          "SFI " ++ PyStr.of_int n ++ " / SSN " ++ sn r ++ " - "
            ++ snd (classify_sfi (sfi r));
          "A=" ++ PyStr.of_int (a r) ++ ", K=" ++ PyStr.of_int (k r) ++ " - "
            ++ snd (classify_k (k r));
          "Aurora index " ++ PyFloat.format_1f (aurora r) ++ " - "
            ++ snd (classify_aurora (aurora r));
          "X-ray " ++ xray_or_na (xray r) ++ " - " ++ snd (classify_xray (xray r));
          "Geomag: " ++ geomag r ++ ", Noise level: " ++ sig_noise r ]%string).
Proof.
  intros Hn. unfold format_lines.
  destruct (classify_sfi (sfi r)) as [sfi_de sfi_en].
  destruct (classify_k (k r)) as [k_de k_en].
  destruct (classify_aurora (aurora r)) as [aur_de aur_en].
  destruct (classify_xray (xray r)) as [xr_de xr_en].
  rewrite Hn. cbn [bind ok fst snd].
  unfold PyStr.concat. cbn [fold_right]. rewrite !append_empty_r. reflexivity.
Qed.

(** X19: for a record whose four numeric fields are missing, blank or
    strings of digits below [2^53], extraction and formatting cannot fail,
    and the lines show those integers unchanged: SFI [n], A=[n], K=[n] and
    the aurora index as [n].0, each with the phrase of the band the integer
    lies in. *)
Theorem integer_record_lines (item : Element) (now : string)
    (Hint : forall t, In t numeric_tags -> field_is_int item t) :
  let n_sfi := field_int item "solarflux" in
  let n_a := field_int item "aindex" in
  let n_k := field_int item "kindex" in
  let n_aur := field_int item "aurora" in
  let sunspots := safe_get item "sunspots" "?" in
  let xr := safe_get item "xray" "" in
  let geo := safe_get item "geomagfield" "NoRpt" in
  let noise := safe_get item "signalnoise" "?" in
  (r <- extract item ;; format_lines r now)
  = ok ([ "DL2HT Solarbericht - " ++ now;
          "SFI " ++ PyStr.of_int n_sfi ++ " / SN " ++ sunspots ++ " - "
            ++ fst (sfi_ladder n_sfi);
          "A=" ++ PyStr.of_int n_a ++ ", K=" ++ PyStr.of_int n_k ++ " - "
            ++ fst (classify_k n_k);
          "Aurora-Index " ++ PyStr.of_int n_aur ++ ".0" ++ " - "
            ++ fst (aurora_ladder n_aur);
          "X-Ray " ++ xray_or_na xr ++ " - " ++ fst (classify_xray xr);
          "Geomag: " ++ geo ++ ", Rauschpegel: " ++ noise ]%string,
        [ "DL2HT Solar Report - " ++ now;
          "SFI " ++ PyStr.of_int n_sfi ++ " / SSN " ++ sunspots ++ " - "
            ++ snd (sfi_ladder n_sfi);
          "A=" ++ PyStr.of_int n_a ++ ", K=" ++ PyStr.of_int n_k ++ " - "
            ++ snd (classify_k n_k);
          "Aurora index " ++ PyStr.of_int n_aur ++ ".0" ++ " - "
            ++ snd (aurora_ladder n_aur);
          "X-ray " ++ xray_or_na xr ++ " - " ++ snd (classify_xray xr);
          "Geomag: " ++ geo ++ ", Noise level: " ++ noise ]%string).
Proof.
  intros n_sfi n_a n_k n_aur sunspots xr geo noise.
  assert (R : forall t, In t numeric_tags ->
            0 <= field_int item t < 2 ^ 53
            /\ float_or_0 (safe_get item t "0")
               = ok (PyFloat.of_decimal false (field_int item t) 0)
            /\ int_float_or_0 (safe_get item t "0") = ok (field_int item t)).
  { intros t Ht. destruct (Hint t Ht) as [Hd Hb].
    pose proof (digits_value_nonneg _ 0 Hd (Z.le_refl 0)) as H0.
    fold (field_int item t) in H0.
    split; [split; assumption|].
    pose proof (float_or_0_digits _ Hd) as E. fold (field_int item t) in E.
    split; [exact E|].
    unfold int_float_or_0. rewrite E. cbn [bind ok].
    apply of_decimal_int_facts. split; assumption. }
  destruct (R "solarflux" ltac:(cbn; tauto)) as (B1 & F1 & _).
  destruct (R "aindex" ltac:(cbn; tauto)) as (_ & _ & I2).
  destruct (R "kindex" ltac:(cbn; tauto)) as (_ & _ & I3).
  destruct (R "aurora" ltac:(cbn; tauto)) as (B4 & F4 & _).
  unfold extract. rewrite F1, I2, I3, F4. cbn [bind ok].
  fold n_sfi n_a n_k n_aur sunspots xr geo noise.
  rewrite (format_lines_ok _ now n_sfi)
    by (cbn [sfi]; apply of_decimal_int_facts; exact B1).
  cbn [sfi sn a k xray aurora geomag sig_noise].
  rewrite (classify_sfi_ladder n_sfi B1), (classify_aurora_ladder n_aur B4),
    (format_1f_int n_aur B4).
  rewrite !append_assoc_str. reflexivity.
Qed.

Lemma integer_record_lines_witness :
  (forall t, In t numeric_tags ->
     field_is_int (Elem "solardata" None
                     [leaf "solarflux" "150"; leaf "kindex" "3"; leaf "aurora" "6"]) t)
  /\ exists l,
       (r <- extract (Elem "solardata" None
                        [leaf "solarflux" "150"; leaf "kindex" "3"; leaf "aurora" "6"]) ;;
        format_lines r "now") = ok l
       /\ nth_error (fst l) 3 = Some "Aurora-Index 6.0 - moegliche Aurora-Aktivitaet".
Proof.
  assert (H : forall t, In t numeric_tags ->
     field_is_int (Elem "solardata" None
                     [leaf "solarflux" "150"; leaf "kindex" "3"; leaf "aurora" "6"]) t).
  { intros t [<- | [<- | [<- | [<- | []]]]]; split; reflexivity. }
  split; [exact H|].
  eexists. split; [apply (integer_record_lines _ "now" H) | reflexivity].
Defined.

(** ** Order of the ladders *)

(** X20: a larger K index never gets a calmer phrase: the position of
    [classify_k k] in its ladder does not decrease when [k] grows. *)
Theorem classify_k_monotone (k1 k2 : Z) (Hle : k1 <= k2) :
  (k_severity (classify_k k1) <= k_severity (classify_k k2))%nat.
Proof.
  rewrite !classify_k_cases.
  destruct (Z.leb_spec k1 1), (Z.leb_spec k1 3), (Z.eqb_spec k1 4),
    (Z.leb_spec k1 5), (Z.leb_spec k2 1), (Z.leb_spec k2 3), (Z.eqb_spec k2 4),
    (Z.leb_spec k2 5); try lia; cbn; lia.
Qed.

Lemma classify_k_monotone_witness :
  3 <= 5 /\ (k_severity (classify_k 3) <= k_severity (classify_k 5))%nat.
Proof.
  split; [discriminate|]. apply (classify_k_monotone 3 5). discriminate.
Defined.

(** X21: a larger aurora index never gets a lower phrase: for binary64
    values [x <= y] the position of [classify_aurora x] in its ladder is at
    most that of [classify_aurora y]. *)
Theorem classify_aurora_monotone (x y : float)
    (Hx : valid x) (Hy : valid y) (Hle : le x y) :
  (aurora_severity (classify_aurora x) <= aurora_severity (classify_aurora y))%nat.
Proof.
  pose proof (ltb_lit_mono x y 5 ltb_5 Hx Hy Hle) as M5.
  pose proof (ltb_lit_mono x y 7 ltb_7 Hx Hy Hle) as M7.
  pose proof (ltb_5 x Hx) as X5. pose proof (ltb_7 x Hx) as X7.
  pose proof (below_mono x 5 7 ltac:(discriminate)) as M1.
  rewrite !classify_aurora_cases.
  destruct (PyFloat.ltb y (PyFloat.lit 5));
    destruct (PyFloat.ltb y (PyFloat.lit 7));
    destruct (PyFloat.ltb x (PyFloat.lit 5));
    destruct (PyFloat.ltb x (PyFloat.lit 7));
    cbn; try lia;
    try (specialize (M5 eq_refl); discriminate);
    try (specialize (M7 eq_refl); discriminate);
    intuition discriminate.
Qed.

Lemma classify_aurora_monotone_witness :
  valid (PyFloat.lit 4) /\ valid (PyFloat.lit 6) /\ le (PyFloat.lit 4) (PyFloat.lit 6)
  /\ (aurora_severity (classify_aurora (PyFloat.lit 4))
      <= aurora_severity (classify_aurora (PyFloat.lit 6)))%nat.
Proof.
  split; [reflexivity|]. split; [reflexivity|]. split; [discriminate|].
  apply (classify_aurora_monotone (PyFloat.lit 4) (PyFloat.lit 6));
    [reflexivity | reflexivity | discriminate].
Defined.

(** ** The X-ray class *)

Lemma upper_upper c : PyStr.upper (PyStr.upper c) = PyStr.upper c.
Proof. destruct c as [[] [] [] [] [] [] [] []]; reflexivity. Qed.

(** X22: [classify_xray] looks at the first character only and at its
    upper case: the digits after the letter are ignored, and a class in
    lower case is classified like the same class in upper case. *)
Theorem classify_xray_first_char (c : ascii) (r r' : string) :
  classify_xray (String c r) = classify_xray (String c r')
  /\ classify_xray (String (PyStr.upper c) r) = classify_xray (String c r).
Proof.
  split; [reflexivity|]. rewrite !classify_xray_cons, upper_upper. reflexivity.
Qed.

(** ** The timestamp *)

(** X23: the timestamp reaches the first line of each list and nothing
    else: two runs of the formatter on the same report with different
    timestamps agree on the five lines after the header. *)
Theorem format_lines_timestamp (r : SolarReport) (now now' : string)
    (l l' : list string * list string)
    (H : format_lines r now = ok l) (H' : format_lines r now' = ok l') :
  hd_error (fst l) = Some ("DL2HT Solarbericht - " ++ now)%string
  /\ hd_error (snd l) = Some ("DL2HT Solar Report - " ++ now)%string
  /\ tl (fst l) = tl (fst l') /\ tl (snd l) = tl (snd l').
Proof.
  destruct (PyFloat.to_int (sfi r)) as [e | n] eqn:E.
  - pose proof (format_lines_cases r now) as C. rewrite E in C.
    rewrite C in H. discriminate H.
  - rewrite (format_lines_ok r now n E) in H.
    rewrite (format_lines_ok r now' n E) in H'.
    injection H as <-. injection H' as <-. repeat split.
Qed.

Lemma format_lines_timestamp_witness :
  exists l l',
    format_lines {| sfi := S754_zero false; sn := "120"; a := 2; k := 3; xray := "";
                    aurora := S754_zero false; geomag := "Active";
                    sig_noise := "S1" |} "t1" = ok l
    /\ format_lines {| sfi := S754_zero false; sn := "120"; a := 2; k := 3; xray := "";
                       aurora := S754_zero false; geomag := "Active";
                       sig_noise := "S1" |} "t2" = ok l'
    /\ tl (fst l) = tl (fst l').
Proof.
  pose proof (format_lines_ok
                {| sfi := S754_zero false; sn := "120"; a := 2; k := 3; xray := "";
                   aurora := S754_zero false; geomag := "Active";
                   sig_noise := "S1" |} "t1" 0 eq_refl) as H1.
  pose proof (format_lines_ok
                {| sfi := S754_zero false; sn := "120"; a := 2; k := 3; xray := "";
                   aurora := S754_zero false; geomag := "Active";
                   sig_noise := "S1" |} "t2" 0 eq_refl) as H2.
  eexists. eexists. split; [exact H1|]. split; [exact H2|].
  exact (proj1 (proj2 (proj2 (format_lines_timestamp _ "t1" "t2" _ _ H1 H2)))).
Defined.

(** ** Whitespace around a value *)

Lemma lstrip_all_space s : all_space s = true -> PyStr.lstrip PyStr.isspace s = "".
Proof.
  induction s as [|c r IH]; [reflexivity|]. cbn [all_space PyStr.lstrip].
  intros H. apply andb_prop in H. destruct H as [Hc Hr]. rewrite Hc. exact (IH Hr).
Qed.

Lemma rstrip_all_space s : all_space s = true -> PyStr.rstrip PyStr.isspace s = "".
Proof.
  induction s as [|c r IH]; [reflexivity|]. cbn [all_space PyStr.rstrip].
  intros H. apply andb_prop in H. destruct H as [Hc Hr]. rewrite (IH Hr), Hc. reflexivity.
Qed.

Lemma lstrip_empty s : PyStr.lstrip PyStr.isspace s = "" -> all_space s = true.
Proof.
  induction s as [|c r IH]; [reflexivity|]. cbn [all_space PyStr.lstrip].
  destruct (PyStr.isspace c); [exact IH | discriminate].
Qed.

Lemma all_space_app s w :
  all_space s = true -> all_space w = true -> all_space (s ++ w) = true.
Proof.
  induction s as [|c r IH]; intros Hs Hw; [exact Hw|]. cbn [all_space append] in *.
  apply andb_prop in Hs. destruct Hs as [Hc Hr]. rewrite Hc. exact (IH Hr Hw).
Qed.

Lemma lstrip_app_left w s :
  all_space w = true ->
  PyStr.lstrip PyStr.isspace (w ++ s) = PyStr.lstrip PyStr.isspace s.
Proof.
  induction w as [|c r IH]; [reflexivity|]. cbn [all_space append PyStr.lstrip].
  intros H. apply andb_prop in H. destruct H as [Hc Hr]. rewrite Hc. exact (IH Hr).
Qed.

Lemma lstrip_app_right s w :
  PyStr.lstrip PyStr.isspace s <> "" ->
  PyStr.lstrip PyStr.isspace (s ++ w) = (PyStr.lstrip PyStr.isspace s ++ w)%string.
Proof.
  induction s as [|c r IH]; [intros H; exfalso; apply H; reflexivity|].
  cbn [append PyStr.lstrip]. destruct (PyStr.isspace c); [exact IH | reflexivity].
Qed.

Lemma rstrip_app_right s w :
  all_space w = true ->
  PyStr.rstrip PyStr.isspace (s ++ w) = PyStr.rstrip PyStr.isspace s.
Proof.
  intros Hw. induction s as [|c r IH]; [apply rstrip_all_space, Hw|].
  cbn [append PyStr.rstrip]. rewrite IH. reflexivity.
Qed.

Lemma strip_padding w1 s w2 :
  all_space w1 = true -> all_space w2 = true ->
  PyStr.strip (w1 ++ s ++ w2) = PyStr.strip s.
Proof.
  intros H1 H2. unfold PyStr.strip. rewrite (lstrip_app_left w1 _ H1).
  destruct (PyStr.lstrip PyStr.isspace s) as [|c r] eqn:E.
  - rewrite (lstrip_all_space (s ++ w2)); [reflexivity|].
    apply all_space_app; [apply lstrip_empty, E | exact H2].
  - rewrite lstrip_app_right by (rewrite E; discriminate).
    rewrite E. apply rstrip_app_right, H2.
Qed.

(** X24: whitespace around the text of a field does not change what is
    read: a field whose text is [s] between two runs of whitespace
    (indentation, line breaks) gives the same value as the text [s]. *)
Theorem safe_get_padding (item : Element) (t d : string) (el : Element)
    (w1 s w2 : string)
    (Hf : find item [t] = Some el)
    (Ht : text el = Some (w1 ++ s ++ w2)%string)
    (H1 : all_space w1 = true) (H2 : all_space w2 = true) :
  safe_get item t d = PyStr.strip s
  /\ float_or_0 (safe_get item t d) = float_or_0 (PyStr.strip s).
Proof.
  assert (E : safe_get item t d = PyStr.strip s).
  { rewrite (safe_get_text item t d el _ Hf Ht). apply strip_padding; assumption. }
  rewrite E. split; reflexivity.
Qed.

Lemma safe_get_padding_witness :
  safe_get (Elem "solardata" None [leaf "kindex" "
      3  "]) "kindex" "0" = PyStr.strip "3".
Proof.
  apply (safe_get_padding (Elem "solardata" None [leaf "kindex" "
      3  "]) "kindex" "0" (leaf "kindex" "
      3  ") "
      " "3" "  "); reflexivity.
Defined.

(** ** When a run succeeds *)

Lemma int_float_or_0_inv s n :
  int_float_or_0 s = ok n ->
  exists x, float_or_0 s = ok x /\ PyFloat.to_int x = ok n.
Proof. unfold int_float_or_0. intros H. apply bind_ok_inv in H. exact H. Qed.

Lemma display_lines_succeeds (w : world) (root item : Element) :
  response w = ok root -> locate root = ok item ->
  (exists lines, display_lines w = ok lines)
  <-> int_text (safe_get item "solarflux" "0")
      /\ int_text (safe_get item "aindex" "0")
      /\ int_text (safe_get item "kindex" "0")
      /\ float_text (safe_get item "aurora" "0").
Proof.
  intros Hr Hl. rewrite float_text_iff, !int_text_iff. split.
  - intros (lines & H). apply display_lines_ok_inv in H.
    destruct H as (root' & item' & r & Hr' & Hl' & He & Hf).
    rewrite Hr in Hr'. injection Hr' as <-.
    rewrite Hl in Hl'. injection Hl' as <-.
    apply extract_ok_inv in He. destruct He as (E1 & _ & E2 & E3 & _ & E4 & _).
    pose proof (format_lines_cases r (now_utc w)) as C.
    destruct (PyFloat.to_int (sfi r)) as [e | n] eqn:T.
    { rewrite C in Hf. discriminate Hf. }
    split; [|repeat split; eexists; eassumption].
    exists n. unfold int_float_or_0. rewrite E1. cbn [bind ok]. exact T.
  - intros ((n1 & I1) & (n2 & I2) & (n3 & I3) & (x4 & F4)).
    apply int_float_or_0_inv in I1. destruct I1 as (x1 & F1 & T1).
    unfold display_lines. rewrite Hr. cbn [bind ok]. rewrite Hl. cbn [bind ok].
    unfold extract. rewrite F1, I2, I3, F4. cbn [bind ok].
    rewrite (format_lines_ok _ (now_utc w) n1) by exact T1.
    eexists. reflexivity.
Qed.

(** X25: once the record node is found, the run saves an image exactly
    when the texts of solarflux, aindex and kindex are empty or read as
    finite floats, the text of aurora is empty or read as any float, and
    none of the calls into Pillow made for the lines to be shown raises;
    no other content of the record, and nothing about the clock, can make
    it fail. *)
Theorem main_succeeds (w : world) (root item : Element)
    (Hr : response w = ok root) (Hl : locate root = ok item) :
  (exists img, main w = ok img)
  <-> (int_text (safe_get item "solarflux" "0")
       /\ int_text (safe_get item "aindex" "0")
       /\ int_text (safe_get item "kindex" "0")
       /\ float_text (safe_get item "aurora" "0"))
      /\ (forall lines, display_lines w = ok lines ->
          forall c, In c (library_calls w (fst lines) (snd lines)) ->
                    lib_raises w c = None).
Proof.
  rewrite <- (display_lines_succeeds w root item Hr Hl), main_display.
  destruct (display_lines w) as [e | lines] eqn:D.
  - split; [intros (img & H); discriminate H|].
    intros ((l & H) & _). discriminate H.
  - destruct (first_error (lib_raises w)
                (library_calls w (fst lines) (snd lines))) as [e|] eqn:F.
    + split; [intros (img & H); discriminate H|].
      intros (_ & Q). exfalso.
      pose proof (proj2 (first_error_None _ _) (Q lines eq_refl)) as N.
      rewrite N in F. discriminate F.
    + split; [|intros _; eexists; reflexivity].
      intros _. split; [eexists; reflexivity|].
      intros l H. injection H as <-. apply first_error_None, F.
Qed.

Lemma main_succeeds_witness :
  response (world_without_textsize (feed_of synthetic_record))
  = ok (feed_of synthetic_record)
  /\ locate (feed_of synthetic_record) = ok synthetic_record
  /\ ((exists img, main (world_without_textsize (feed_of synthetic_record)) = ok img)
      <-> (int_text (safe_get synthetic_record "solarflux" "0")
           /\ int_text (safe_get synthetic_record "aindex" "0")
           /\ int_text (safe_get synthetic_record "kindex" "0")
           /\ float_text (safe_get synthetic_record "aurora" "0"))
          /\ (forall lines,
                display_lines (world_without_textsize (feed_of synthetic_record))
                = ok lines ->
                forall c,
                  In c (library_calls
                          (world_without_textsize (feed_of synthetic_record))
                          (fst lines) (snd lines)) ->
                  lib_raises (world_without_textsize (feed_of synthetic_record)) c
                  = None)).
Proof.
  split; [reflexivity|]. split; [reflexivity|].
  apply (main_succeeds (world_without_textsize (feed_of synthetic_record))
           (feed_of synthetic_record) synthetic_record); reflexivity.
Defined.

(** ** Defaults of the leaf fields *)

Lemma lstrip_decomp s :
  exists w, all_space w = true /\ s = (w ++ PyStr.lstrip PyStr.isspace s)%string.
Proof.
  induction s as [|c r (w & A & E)].
  - exists "". split; reflexivity.
  - cbn [PyStr.lstrip]. destruct (PyStr.isspace c) eqn:Ec.
    + exists (String c w). split; [cbn [all_space]; rewrite Ec; exact A|].
      cbn [append]. rewrite <- E. reflexivity.
    + exists "". split; reflexivity.
Qed.

Lemma rstrip_decomp s :
  exists w, all_space w = true /\ s = (PyStr.rstrip PyStr.isspace s ++ w)%string.
Proof.
  induction s as [|c r (w & A & E)].
  - exists "". split; reflexivity.
  - cbn [PyStr.rstrip]. destruct (PyStr.rstrip PyStr.isspace r) as [|c' r'] eqn:Er.
    + cbn [append] in E. subst w. destruct (PyStr.isspace c) eqn:Ec.
      * exists (String c r). split; [cbn [all_space]; rewrite Ec; exact A|reflexivity].
      * exists r. split; [exact A | reflexivity].
    + exists w. split; [exact A|]. cbn [append] in *. rewrite <- E. reflexivity.
Qed.

(** The text is the stripped text between two runs of whitespace. *)
Lemma strip_decomp s :
  exists w1 w2, all_space w1 = true /\ all_space w2 = true
                /\ s = (w1 ++ PyStr.strip s ++ w2)%string.
Proof.
  destruct (lstrip_decomp s) as (w1 & A1 & E1).
  destruct (rstrip_decomp (PyStr.lstrip PyStr.isspace s)) as (w2 & A2 & E2).
  exists w1, w2. split; [exact A1|]. split; [exact A2|].
  unfold PyStr.strip. rewrite <- E2. exact E1.
Qed.

Lemma lstrip_fixed_head sp c r :
  PyStr.lstrip sp (String c r) = String c r -> sp c = false.
Proof.
  cbn [PyStr.lstrip]. destruct (sp c) eqn:Ec; [|reflexivity]. intros H. exfalso.
  assert (L : forall s, (String.length (PyStr.lstrip sp s) <= String.length s)%nat).
  { induction s as [|c' r' IH]; [apply Nat.le_refl|]. cbn [PyStr.lstrip].
    destruct (sp c'); cbn [String.length]; [|apply Nat.le_refl].
    apply Nat.le_trans with (1 := IH). apply Nat.le_succ_diag_r. }
  specialize (L r). rewrite H in L. cbn [String.length] in L. lia.
Qed.

Lemma rstrip_fixed_last sp r c :
  PyStr.rstrip sp (r ++ String c "") = (r ++ String c "")%string -> sp c = false.
Proof.
  induction r as [|a r IH]; cbn [append PyStr.rstrip].
  - destruct (sp c); [discriminate | reflexivity].
  - destruct (PyStr.rstrip sp (r ++ String c "")) as [|c' u] eqn:E.
    + intros H. exfalso. destruct (sp a); [discriminate H|].
      injection H as H. destruct r; discriminate H.
    + intros H. injection H as H. apply IH. exact H.
Qed.

(** The stripped text neither starts nor ends with whitespace. *)
Lemma strip_ends_clean s : ends_clean (PyStr.strip s).
Proof.
  pose proof (strip_trimmed s) as T. unfold trimmed in T.
  split.
  - intros c r E. apply (lstrip_fixed_head PyStr.isspace c r).
    rewrite <- E. unfold PyStr.strip.
    apply (lstrip_rstrip PyStr.isspace PyStr.isspace); [intros c' H; exact H|].
    apply lstrip_fixed.
  - intros r c E. apply (rstrip_fixed_last PyStr.isspace r c).
    rewrite <- E. unfold PyStr.strip. apply rstrip_fixed.
Qed.

Lemma extract_total item :
  (exists r, extract item = ok r)
  <-> float_text (safe_get item "solarflux" "0")
      /\ int_text (safe_get item "aindex" "0")
      /\ int_text (safe_get item "kindex" "0")
      /\ float_text (safe_get item "aurora" "0").
Proof.
  rewrite !float_text_iff, !int_text_iff. split.
  - intros (r & H). apply extract_ok_inv in H.
    destruct H as (E1 & _ & E2 & E3 & _ & E4 & _).
    repeat split; eexists; eassumption.
  - intros ((x1 & F1) & (n2 & I2) & (n3 & I3) & (x4 & F4)).
    unfold extract. rewrite F1, I2, I3, F4. cbn [bind ok]. eexists. reflexivity.
Qed.

(** C2, as the code has it: the element of a field is the first child of
    that name; [safe_get] gives the default when the element is missing or
    has no text, and otherwise the text without the whitespace at its two
    ends; extraction builds a report exactly when the texts read for
    solarflux and aurora are empty or accepted by [float] and those read
    for aindex and kindex are empty or accepted as finite floats, and
    raises [ValueError] or [OverflowError] otherwise; a report, when one is
    built, has every field set from these values with the defaults 0, ?, 0,
    0, the empty string, 0 and NoRpt; for a record without [kindex] the
    read of that field gives 0 without raising, classified quiet, every
    report built has [k = 0], and a report is built whenever the other
    three numeric texts are accepted. *)
Theorem safe_get_defaults (item : Element) :
  (forall t, find item [t]
             = List.find (fun c => String.eqb (tag c) t) (children item))
  /\ (forall t default, field_absent item t -> safe_get item t default = default)
  /\ (forall t default el s,
        find item [t] = Some el -> text el = Some s ->
        safe_get item t default = PyStr.strip s
        /\ ends_clean (PyStr.strip s)
        /\ exists w1 w2, all_space w1 = true /\ all_space w2 = true
                         /\ s = (w1 ++ PyStr.strip s ++ w2)%string)
  /\ ((exists r, extract item = ok r)
      <-> float_text (safe_get item "solarflux" "0")
          /\ int_text (safe_get item "aindex" "0")
          /\ int_text (safe_get item "kindex" "0")
          /\ float_text (safe_get item "aurora" "0"))
  /\ (forall e, extract item = raise e -> e = ValueError \/ e = OverflowError)
  /\ (forall r, extract item = ok r ->
        float_or_0 (safe_get item "solarflux" "0") = ok (sfi r)
        /\ sn r = safe_get item "sunspots" "?"
        /\ int_float_or_0 (safe_get item "aindex" "0") = ok (a r)
        /\ int_float_or_0 (safe_get item "kindex" "0") = ok (k r)
        /\ xray r = safe_get item "xray" ""
        /\ float_or_0 (safe_get item "aurora" "0") = ok (aurora r)
        /\ geomag r = safe_get item "geomagfield" "NoRpt"
        /\ sig_noise r = safe_get item "signalnoise" "?")
  /\ (forall t, In t numeric_tags -> field_absent item t ->
        float_or_0 (safe_get item t "0") = ok (S754_zero false)
        /\ int_float_or_0 (safe_get item t "0") = ok 0)
  /\ (find item ["kindex"] = None ->
        int_float_or_0 (safe_get item "kindex" "0") = ok 0
        /\ classify_k 0 = k_quiet
        /\ (forall r, extract item = ok r -> k r = 0 /\ classify_k (k r) = k_quiet)
        /\ ((exists r, extract item = ok r
                       /\ k r = 0 /\ classify_k (k r) = k_quiet)
            <-> float_text (safe_get item "solarflux" "0")
                /\ int_text (safe_get item "aindex" "0")
                /\ float_text (safe_get item "aurora" "0")))
  /\ (exists r, extract record_no_kindex = ok r
                /\ k r = 0 /\ classify_k (k r) = k_quiet).
Proof.
  split; [intros t; apply find_child|].
  split; [intros t default; apply safe_get_absent|].
  split.
  { intros t default el s Hf Ht.
    split; [apply (safe_get_text item t default el s Hf Ht)|].
    split; [apply strip_ends_clean | apply strip_decomp]. }
  split; [apply extract_total|].
  split; [intros e; apply extract_raise_kind|].
  split; [apply extract_ok_inv|].
  split; [intros t _ H; apply field_reads_zero; left; exact H|].
  split.
  - intros Hk.
    assert (E : int_float_or_0 (safe_get item "kindex" "0") = ok 0).
    { apply field_reads_zero. left. left. exact Hk. }
    assert (K : forall r, extract item = ok r -> k r = 0 /\ classify_k (k r) = k_quiet).
    { intros r Hr. apply extract_ok_inv in Hr.
      destruct Hr as (_ & _ & _ & Ek & _).
      rewrite E in Ek. injection Ek as <-. split; reflexivity. }
    split; [exact E|]. split; [reflexivity|]. split; [exact K|].
    split.
    + intros (r & Hr & _).
      destruct (proj1 (extract_total item) (ex_intro _ r Hr)) as (A & B & _ & D).
      repeat split; assumption.
    + intros (A & B & D).
      destruct (proj2 (extract_total item)) as (r & Hr).
      { split; [exact A|]. split; [exact B|]. split; [|exact D].
        apply int_text_iff. exists 0. exact E. }
      exists r. split; [exact Hr | apply K, Hr].
  - eexists. split; [vm_compute; reflexivity|]. split; reflexivity.
Qed.

Lemma safe_get_defaults_witness :
  find record_no_kindex ["kindex"] = None
  /\ int_float_or_0 (safe_get record_no_kindex "kindex" "0") = ok 0.
Proof.
  split; [reflexivity|].
  apply (safe_get_defaults record_no_kindex). reflexivity.
Defined.

(** A record without [kindex] whose [aindex] is the text N/A: the read of
    [kindex] would give 0, but extraction raises [ValueError] at [aindex],
    so no report is built and no K index is classified. *)
Lemma no_kindex_na_counterexample :
  find record_no_kindex_na ["kindex"] = None
  /\ safe_get record_no_kindex_na "aindex" "0" = "N/A"
  /\ extract record_no_kindex_na = raise ValueError
  /\ ~ (exists r, extract record_no_kindex_na = ok r
                  /\ k r = 0 /\ classify_k (k r) = k_quiet)
  /\ main (world_of (feed_of record_no_kindex_na)) = raise ValueError.
Proof.
  assert (E : extract record_no_kindex_na = raise ValueError)
    by (vm_compute; reflexivity).
  split; [reflexivity|]. split; [reflexivity|]. split; [exact E|].
  split; [|vm_compute; reflexivity].
  intros (r & H & _). rewrite E in H. discriminate H.
Qed.
